(** * milezup-backend: booking conflict detection and reservation lifecycle

    A shallow embedding of the route handlers that decide whether a car may
    be booked and in which state a booking is

      - [POST /api/bookings]            (routes/bookings.js, authenticated)
      - [POST /api/bookings/guest]      (routes/bookings.js, guest)
      - [GET  /api/cars/:id/availability]
      - [PUT  /api/admin/bookings/:id/status]

    together with the Mongoose schema of a booking (bookingSchema), and of
    the routes that read what those handlers wrote

      - [GET  /api/bookings]            (routes/bookings.js, a user's list)
      - [GET  /api/bookings/:id]        (routes/bookings.js)
      - [GET  /api/admin/bookings]      (routes/admin.js, the admin list)
      - [GET  /api/admin/dashboard]     (routes/admin.js).

    Conventions of the embedding.
      - A JavaScript [Date] is its time value, an integer number of
        milliseconds since the epoch ([getTime()]), so [Date := Z]; only
        valid dates are modelled.
      - A price or an amount is a JavaScript number, an IEEE-754 double.
        Every finite double is a whole multiple of 2^-1074, so [Number.t]
        counts these units; a product or a sum is rounded to the nearest
        double, ties to even, and 2^1024 stands for [Infinity].  [NaN] is
        not represented: no route below produces one from a stored price.
        A day count is a whole number well below 2^53 and is kept as an
        integer.
      - Document ids ([ObjectId]) are natural numbers.
      - A collection is the list of its documents in insertion order.
      - A request is the body as the handler sees it once
        [validationResult(req)] has come back empty, so that its dates are
        valid and its two location strings are not empty; the validator
        chain and the [auth]/[admin] middlewares are outside the embedding.
      - Every awaited store call may reject.  Which ones do is given by an
        oracle [Faults]; the [catch] block of each handler turns a rejection
        into the 500 reply, whose [error] field names the call. *)

From Stdlib Require Import ZArith List Ascii String Bool Arith Lia Permutation.
Import ListNotations.

Local Open Scope Z_scope.

(* ------------------------------------------------------------------ *)
(** ** Data model *)

Definition Id := nat.
Definition Date := Z.

(** [status] enum of bookingSchema. *)
Inductive Status : Set :=
| pending | confirmed | active | completed | cancelled.

Definition Status_eqb (a b : Status) : bool :=
  match a, b with
  | pending, pending | confirmed, confirmed | active, active
  | completed, completed | cancelled, cancelled => true
  | _, _ => false
  end.

Module PaymentStatus.
(** [paymentStatus] enum of bookingSchema. *)
Inductive t : Set := pending | paid | failed | refunded.
End PaymentStatus.

(** The embedded [guestInfo] sub-document. *)
Record GuestInfo : Set := mkGuestInfo {
  guest_name : string;
  guest_email : string;
  guest_phone : string
}.

(** [1000 * 3600 * 24] *)
Definition MS_PER_DAY : Z := 1000 * 3600 * 24.

(** [Math.ceil(n / d)] for whole numbers and a positive divisor, as the
    exact ceiling.  The code divides doubles; for a span [n] below 2^53 ms
    and [d = MS_PER_DAY] the double quotient has the same ceiling. *)
Definition Math_ceil_div (n d : Z) : Z := - ((- n) / d).

(** [S (max ids)]: an id that no document of the collection carries. *)
Definition fresh (ids : list Id) : Id := S (list_max ids).

Module Number.
(** A JavaScript number.  A finite double is [m * 2^e] with [|m| < 2^53] and
    [-1074 <= e <= 971], hence a whole multiple of 2^-1074: [t] is that
    multiple, so that [one] is the number 1 and [of_Z n] the whole number
    [n] (a double up to 2^53 in magnitude, and beyond when it has no more
    than 53 significant bits).  [infinity] and [- infinity] stand for
    [Infinity] and [-Infinity]. *)
Definition t : Set := Z.

Definition one : t := 2 ^ 1074.

Definition infinity : t := 2 ^ 2098.

Definition of_Z (n : Z) : t := n * one.

(** The double [m * 2^e], for [e] from -1074 on. *)
Definition of_double (m e : Z) : t := m * 2 ^ (e + 1074).

(** Round to nearest, ties to even, a non-negative exact value to 53
    significant bits: below 2^53 units every value is a double (the
    subnormal range and the first binade); above, the value is cut after 53
    bits at bit [e] and the cut-off part [r] decides. *)
Definition round_pos (x : Z) : Z :=
  if x <? 2 ^ 53 then x else
  let e := Z.log2 x - 52 in
  let q := x / 2 ^ e in
  let r := x mod 2 ^ e in
  let h := 2 ^ (e - 1) in
  (if r <? h then q
   else if h <? r then q + 1
   else if Z.even q then q else q + 1) * 2 ^ e.

(** The double nearest to an exact value; what rounds to 2^1024 or beyond
    is [Infinity]. *)
Definition round (x : Z) : t :=
  Z.max (- infinity)
    (Z.min infinity (if 0 <=? x then round_pos x else - round_pos (- x))).

(** [k * x] for a whole number [k] that is itself a double, as a day
    count is ([0 * Infinity], a [NaN], is not represented). *)
Definition mul_int (k : Z) (x : t) : t := round (k * x).

(** [a + b]; an infinite operand stays ([Infinity + -Infinity], a [NaN], is
    not represented). *)
Definition add (a b : t) : t :=
  if infinity <=? Z.abs a then a
  else if infinity <=? Z.abs b then b
  else round (a + b).

(** The exact values that are finite doubles. *)
Definition representable (x : Z) : Prop :=
  Z.abs x < infinity /\
  exists m e, 0 <= e /\ Z.abs m < 2 ^ 53 /\ x = m * 2 ^ e.

(** The whole number nearest to [a / b], ties to even. *)
Definition nearest_quotient (a b : Z) : Z :=
  let q := a / b in
  let r := a mod b in
  if 2 * r <? b then q
  else if b <? 2 * r then q + 1
  else if Z.even q then q else q + 1.

(** [Math.ceil(n / d)] for whole numbers [0 < n] and [0 < d] that are
    doubles: the quotient is rounded to 53 significant bits, to [m * 2^-s],
    and the ceiling is taken of that. *)
Definition ceil_quotient (n d : Z) : Z :=
  let scaled s := (n * 2 ^ Z.max s 0, d * 2 ^ Z.max (- s) 0) in
  let s0 := 52 - (Z.log2 n - Z.log2 d) in
  let s := if fst (scaled s0) <? snd (scaled s0) * 2 ^ 52
           then s0 + 1 else s0 in
  let m := nearest_quotient (fst (scaled s)) (snd (scaled s)) in
  if 0 <=? s then Math_ceil_div m (2 ^ s) else m * 2 ^ (- s).
End Number.

Arguments Number.round : simpl never.
Arguments Number.mul_int : simpl never.
Arguments Number.add : simpl never.
Arguments Number.of_Z : simpl never.
Arguments Number.ceil_quotient : simpl never.

Module Car.
(** The fields of carSchema that the booking logic reads. *)
Record t : Set := mk {
  id : Id;
  pricePerDay : Number.t;
  isAvailable : bool
}.

(** [Car.findById(carId)] *)
Definition findById (carId : Id) (cs : list t) : option t :=
  find (fun c => Nat.eqb (id c) carId) cs.
End Car.

Module Booking.
(** A stored booking document. *)
Record t : Set := mk {
  id : Id;
  user : Id;
  car : Id;
  startDate : Date;
  endDate : Date;
  totalDays : Z;
  totalAmount : Number.t;
  status : Status;
  paymentStatus : PaymentStatus.t;
  pickupLocation : string;
  returnLocation : string;
  specialRequests : option string;
  isGuestBooking : bool;
  guestInfo : option GuestInfo
}.

(** The object literal handed to [Booking.create]; the fields with a
    schema default may be left out. *)
Record fields : Set := mkFields {
  f_user : Id;
  f_car : Id;
  f_startDate : Date;
  f_endDate : Date;
  f_totalDays : Z;
  f_totalAmount : Number.t;
  f_pickupLocation : string;
  f_returnLocation : string;
  f_specialRequests : option string;
  f_status : option Status;
  f_isGuestBooking : option bool;
  f_guestInfo : option GuestInfo
}.

(** Document construction: schema defaults [status: 'pending'],
    [paymentStatus: 'pending'], [isGuestBooking: false]. *)
Definition construct (i : Id) (f : fields) : t :=
  {| id := i;
     user := f_user f;
     car := f_car f;
     startDate := f_startDate f;
     endDate := f_endDate f;
     totalDays := f_totalDays f;
     totalAmount := f_totalAmount f;
     status := match f_status f with Some s => s | None => pending end;
     paymentStatus := PaymentStatus.pending;
     pickupLocation := f_pickupLocation f;
     returnLocation := f_returnLocation f;
     specialRequests := f_specialRequests f;
     isGuestBooking :=
       match f_isGuestBooking f with Some g => g | None => false end;
     guestInfo := f_guestInfo f |}.

Definition set_totalDays (d : Z) (b : t) : t :=
  {| id := id b; user := user b; car := car b;
     startDate := startDate b; endDate := endDate b;
     totalDays := d; totalAmount := totalAmount b;
     status := status b; paymentStatus := paymentStatus b;
     pickupLocation := pickupLocation b;
     returnLocation := returnLocation b;
     specialRequests := specialRequests b;
     isGuestBooking := isGuestBooking b; guestInfo := guestInfo b |}.

Definition set_status (s : Status) (b : t) : t :=
  {| id := id b; user := user b; car := car b;
     startDate := startDate b; endDate := endDate b;
     totalDays := totalDays b; totalAmount := totalAmount b;
     status := s; paymentStatus := paymentStatus b;
     pickupLocation := pickupLocation b;
     returnLocation := returnLocation b;
     specialRequests := specialRequests b;
     isGuestBooking := isGuestBooking b; guestInfo := guestInfo b |}.

(** [bookingSchema.pre('validate', ...)]: rejects an empty or reversed
    range, otherwise recomputes [totalDays] from the two dates.  The hook
    subtracts and divides doubles; for dates less than 2^53 ms apart, as
    are any two dates after 1970 that a [Date] can hold, that is the exact
    ceiling taken here. *)
Definition pre_validate (b : t) : option t :=
  if startDate b >=? endDate b then None
  else Some (set_totalDays
               (Math_ceil_div (endDate b - startDate b) MS_PER_DAY) b).

(** [required: true] on a String path: the value has a length other than
    0. *)
Definition required (s : string) : bool := negb (String.eqb s EmptyString).

(** The schema validators: [totalAmount: { min: 0 }] and the [required]
    location strings.  The other [required] paths (ids, dates, numbers) are
    present in every document of the embedding, and the enums hold by
    typing. *)
Definition validators (b : t) : bool :=
  (0 <=? totalAmount b)
  && required (pickupLocation b) && required (returnLocation b).

(** [Booking.create(fields)]: build, validate, insert.  [None] is a
    rejected promise; nothing is inserted then. *)
Definition create (f : fields) (bs : list t) : option (list t * t) :=
  match pre_validate (construct (fresh (map id bs)) f) with
  | None => None
  | Some b => if validators b then Some (bs ++ [b], b) else None
  end.

(** The date part of the conflict query,
    [{ startDate: { $lte: end }, endDate: { $gte: start } }],
    for a stored range [s1, e1] and a requested range [s2, e2]. *)
Definition overlaps (s1 e1 s2 e2 : Date) : bool :=
  (s1 <=? e2) && (e1 >=? s2).

(** The whole conflict query:
    [{ car: carId, status: { $in: statuses }, $or: [ <overlap> ] }]. *)
Definition conflict_query
    (carId : Id) (statuses : list Status) (start end_ : Date) (b : t)
  : bool :=
  Nat.eqb (car b) carId
  && existsb (Status_eqb (status b)) statuses
  && overlaps (startDate b) (endDate b) start end_.

(** [Booking.find(query)]: the matching documents, in store order. *)
Definition find (query : t -> bool) (bs : list t) : list t :=
  filter query bs.

Definition findById (i : Id) (bs : list t) : option t :=
  List.find (fun b => Nat.eqb (id b) i) bs.

(** The write of [findByIdAndUpdate(id, { status }, { new: true })]:
    the first document carrying the id gets the new status. *)
Fixpoint update_status (i : Id) (s : Status) (bs : list t) : list t :=
  match bs with
  | [] => []
  | b :: rest =>
      if Nat.eqb (id b) i then set_status s b :: rest
      else b :: update_status i s rest
  end.

(** [Booking.findByIdAndUpdate(id, { status }, { new: true })]: the
    updated document, or [null] when no document has the id. *)
Definition findByIdAndUpdate (i : Id) (s : Status) (bs : list t)
  : list t * option t :=
  match findById i bs with
  | None => (bs, None)
  | Some b => (update_status i s bs, Some (set_status s b))
  end.
End Booking.

Module User.
Inductive Role : Set := role_user | role_admin | role_guest.

(** Modelled from the spec: models/User.js is not among the sources.  The
    record holds the fields that routes/bookings.js reads and writes on a
    user document; the guest identity of the spec is a user document with
    [isGuest = true], keyed by [email]. *)
Record t : Set := mk {
  id : Id;
  name : string;
  email : string;
  phone : string;
  role : Role;
  isGuest : bool
}.

(** [User.findOne({ email: e, isGuest: true })] *)
Definition is_guest_with (e : string) (u : t) : bool :=
  String.eqb (email u) e && Bool.eqb (isGuest u) true.

Definition findOne (e : string) (us : list t) : option t :=
  List.find (is_guest_with e) us.

(** Modelled from the spec: [User.create({name, email, phone, role:
    'guest', isGuest: true})] inserts a new guest identity under a fresh
    id (models/User.js, with whatever further validation it has, is not
    among the sources; a rejection is left to the fault oracle). *)
Definition create (n e p : string) (us : list t) : list t * t :=
  let u := {| id := fresh (map id us); name := n; email := e; phone := p;
              role := role_guest; isGuest := true |} in
  (us ++ [u], u).

(** [guestUser.name = n; guestUser.phone = p] *)
Definition set_contact (n p : string) (u : t) : t :=
  {| id := id u; name := n; email := email u; phone := p;
     role := role u; isGuest := isGuest u |}.

(** [doc.save()]: the stored document with the id of [u] is replaced. *)
Fixpoint save (u : t) (us : list t) : list t :=
  match us with
  | [] => []
  | v :: rest =>
      if Nat.eqb (id v) (id u) then u :: rest else v :: save u rest
  end.
End User.

(** The three collections. *)
Record Store : Set := mkStore {
  cars : list Car.t;
  bookings : list Booking.t;
  users : list User.t
}.

(* ------------------------------------------------------------------ *)
(** ** Replies *)

(** The awaited store calls of the handlers. *)
Inductive StoreCall : Set :=
| CarFindById
| BookingFind
| UserFindOne
| UserCreate
| UserSave
| BookingCreate
| BookingPopulate
| BookingFindByIdAndUpdate.

(** The JSON replies the handlers send. *)
Inductive Reply : Set :=
| StartNotInFuture
| EndNotAfterStart
| CarNotFound
| CarNotAvailable
| DatesTaken
| BookingCreated (data : Booking.t)
| GuestBookingCreated (data : Booking.t)
| Availability (available : bool) (conflictingDates : list (Date * Date))
| BookingNotFound
| StatusUpdated (data : Booking.t)
| ServerError (error : StoreCall).

Definition http_status (r : Reply) : nat :=
  match r with
  | StartNotInFuture | EndNotAfterStart | CarNotAvailable | DatesTaken => 400
  | CarNotFound | BookingNotFound => 404
  | BookingCreated _ | GuestBookingCreated _ => 201
  | Availability _ _ | StatusUpdated _ => 200
  | ServerError _ => 500
  end%nat.

Definition message (r : Reply) : string :=
  match r with
  | StartNotInFuture => "Start date must be in the future"
  | EndNotAfterStart => "End date must be after start date"
  | CarNotFound => "Car not found"
  | CarNotAvailable => "Car is not available"
  | DatesTaken => "Car is not available for the selected dates"
  | BookingCreated _ => "Booking created successfully"
  | GuestBookingCreated _ =>
      "Guest booking created successfully! We will contact you shortly to confirm your reservation."
  | Availability _ _ => EmptyString
  | BookingNotFound => "Booking not found"
  | StatusUpdated _ => "Booking status updated successfully"
  | ServerError _ => "Server error"
  end%string.

(** The error vocabulary of the specification. *)
Inductive ErrorKind : Set :=
| InvalidDateRange | NotFound | Unavailable | Conflict | InfrastructureError.

(** How the failure replies read in that vocabulary. *)
Definition error_kind (r : Reply) : option ErrorKind :=
  match r with
  | StartNotInFuture | EndNotAfterStart => Some InvalidDateRange
  | CarNotFound | BookingNotFound => Some NotFound
  | CarNotAvailable => Some Unavailable
  | DatesTaken => Some Conflict
  | ServerError _ => Some InfrastructureError
  | BookingCreated _ | GuestBookingCreated _
  | Availability _ _ | StatusUpdated _ => None
  end.

(** The reservation a successful creation hands back. *)
Definition created (r : Reply) : option Booking.t :=
  match r with
  | BookingCreated b | GuestBookingCreated b => Some b
  | _ => None
  end.

(* ------------------------------------------------------------------ *)
(** ** Handler monad: store passing, early [return res...], rejection *)

Definition Faults := StoreCall -> bool.

Definition no_faults : Faults := fun _ => false.

Inductive Outcome (A : Type) : Type :=
| Value (a : A)
| Responded (r : Reply)
| Threw (c : StoreCall).

Arguments Value {A} a.
Arguments Responded {A} r.
Arguments Threw {A} c.

Definition Handler (A : Type) : Type := Store -> Store * Outcome A.

Definition ret {A} (a : A) : Handler A := fun st => (st, Value a).

Definition bind {A B} (m : Handler A) (k : A -> Handler B) : Handler B :=
  fun st =>
    match m st with
    | (st', Value a) => k a st'
    | (st', Responded r) => (st', Responded r)
    | (st', Threw c) => (st', Threw c)
    end.

Declare Scope handler_scope.
Delimit Scope handler_scope with handler.

Notation "x <- m ;; k" := (bind m (fun x => k))
  (at level 100, m at next level, right associativity) : handler_scope.

(** [return res.status(..).json(..)] *)
Definition respond {A} (r : Reply) : Handler A :=
  fun st => (st, Responded r).

(** [await] of a store call that rejects only when the store fails. *)
Definition await {A} (th : Faults) (c : StoreCall)
    (op : Store -> Store * A) : Handler A :=
  fun st =>
    if th c then (st, Threw c)
    else let (st', a) := op st in (st', Value a).

(** [await] of a store call that may also reject on its own. *)
Definition await_checked {A} (th : Faults) (c : StoreCall)
    (op : Store -> option (Store * A)) : Handler A :=
  fun st =>
    if th c then (st, Threw c)
    else match op st with
         | Some (st', a) => (st', Value a)
         | None => (st, Threw c)
         end.

(** [try { ... } catch (error) { res.status(500).json(...) }] *)
Definition try_catch (body : Handler Reply) (st : Store) : Store * Reply :=
  match body st with
  | (st', Value r) => (st', r)
  | (st', Responded r) => (st', r)
  | (st', Threw c) => (st', ServerError c)
  end.

(** Store calls. *)
Definition Car_findById (carId : Id) (st : Store) : Store * option Car.t :=
  (st, Car.findById carId (cars st)).

Definition Booking_find (query : Booking.t -> bool) (st : Store)
  : Store * list Booking.t :=
  (st, Booking.find query (bookings st)).

Definition Booking_create (f : Booking.fields) (st : Store)
  : option (Store * Booking.t) :=
  match Booking.create f (bookings st) with
  | Some (bs, b) =>
      Some ({| cars := cars st; bookings := bs; users := users st |}, b)
  | None => None
  end.

(** [booking.populate('car', ...)]: a read that only decorates the reply. *)
Definition Booking_populate (st : Store) : Store * unit := (st, tt).

Definition User_findOne (e : string) (st : Store) : Store * option User.t :=
  (st, User.findOne e (users st)).

Definition User_create (n e p : string) (st : Store) : Store * User.t :=
  let (us, u) := User.create n e p (users st) in
  ({| cars := cars st; bookings := bookings st; users := us |}, u).

Definition User_save (u : User.t) (st : Store) : Store * unit :=
  ({| cars := cars st; bookings := bookings st;
      users := User.save u (users st) |}, tt).

Definition Booking_findByIdAndUpdate (i : Id) (s : Status) (st : Store)
  : Store * option Booking.t :=
  let (bs, r) := Booking.findByIdAndUpdate i s (bookings st) in
  ({| cars := cars st; bookings := bs; users := users st |}, r).

(* ------------------------------------------------------------------ *)
(** ** routes/bookings.js *)

(** A string that [notEmpty()] has let through: its first character and
    the rest. *)
Record NonEmptyString : Set := nonempty {
  first_char : ascii;
  rest : string
}.

Definition text (s : NonEmptyString) : string :=
  String (first_char s) (rest s).

Record BookingRequest : Set := mkBookingRequest {
  req_car : Id;
  req_startDate : Date;
  req_endDate : Date;
  req_pickupLocation : NonEmptyString;
  req_returnLocation : NonEmptyString;
  req_specialRequests : option string
}.

Local Open Scope handler_scope.

(** [router.post('/', [auth], ...)]; [now] is [new Date()] at the time of
    the request and [userId] is [req.user.id]. *)
Definition createBooking (th : Faults) (now : Date) (userId : Id)
    (req : BookingRequest) : Store -> Store * Reply :=
  try_catch (
    let start := req_startDate req in
    let end_ := req_endDate req in
    if start <=? now then respond StartNotInFuture else
    if end_ <=? start then respond EndNotAfterStart else
    car <- await th CarFindById (Car_findById (req_car req)) ;;
    match car with
    | None => respond CarNotFound
    | Some car =>
      if negb (Car.isAvailable car) then respond CarNotAvailable else
      conflictingBookings <-
        await th BookingFind
          (Booking_find
             (Booking.conflict_query (req_car req)
                [confirmed; active] start end_)) ;;
      if (0 <? List.length conflictingBookings)%nat then respond DatesTaken else
      let totalDays := Math_ceil_div (end_ - start) MS_PER_DAY in
      let totalAmount := Number.mul_int totalDays (Car.pricePerDay car) in
      booking <-
        await_checked th BookingCreate
          (Booking_create
             {| Booking.f_user := userId;
                Booking.f_car := req_car req;
                Booking.f_startDate := start;
                Booking.f_endDate := end_;
                Booking.f_totalDays := totalDays;
                Booking.f_totalAmount := totalAmount;
                Booking.f_pickupLocation := text (req_pickupLocation req);
                Booking.f_returnLocation := text (req_returnLocation req);
                Booking.f_specialRequests := req_specialRequests req;
                Booking.f_status := None;
                Booking.f_isGuestBooking := None;
                Booking.f_guestInfo := None |}) ;;
      _ <- await th BookingPopulate Booking_populate ;;
      ret (BookingCreated booking)
    end).

(** [router.post('/guest', ...)] *)
Definition createGuestBooking (th : Faults) (now : Date)
    (req : BookingRequest) (guestInfo : GuestInfo)
  : Store -> Store * Reply :=
  try_catch (
    let start := req_startDate req in
    let end_ := req_endDate req in
    if start <=? now then respond StartNotInFuture else
    if end_ <=? start then respond EndNotAfterStart else
    car <- await th CarFindById (Car_findById (req_car req)) ;;
    match car with
    | None => respond CarNotFound
    | Some car =>
      if negb (Car.isAvailable car) then respond CarNotAvailable else
      conflictingBookings <-
        await th BookingFind
          (Booking_find
             (Booking.conflict_query (req_car req)
                [confirmed; active; pending] start end_)) ;;
      if (0 <? List.length conflictingBookings)%nat then respond DatesTaken else
      let totalDays := Math_ceil_div (end_ - start) MS_PER_DAY in
      let totalAmount := Number.mul_int totalDays (Car.pricePerDay car) in
      found <- await th UserFindOne (User_findOne (guest_email guestInfo)) ;;
      guestUser <-
        match found with
        | None =>
            await th UserCreate
              (User_create (guest_name guestInfo) (guest_email guestInfo)
                 (guest_phone guestInfo))
        | Some u =>
            let u' :=
              User.set_contact (guest_name guestInfo)
                (guest_phone guestInfo) u in
            _ <- await th UserSave (User_save u') ;;
            ret u'
        end ;;
      booking <-
        await_checked th BookingCreate
          (Booking_create
             {| Booking.f_user := User.id guestUser;
                Booking.f_car := req_car req;
                Booking.f_startDate := start;
                Booking.f_endDate := end_;
                Booking.f_totalDays := totalDays;
                Booking.f_totalAmount := totalAmount;
                Booking.f_pickupLocation := text (req_pickupLocation req);
                Booking.f_returnLocation := text (req_returnLocation req);
                Booking.f_specialRequests := req_specialRequests req;
                Booking.f_status := Some pending;
                Booking.f_isGuestBooking := Some true;
                Booking.f_guestInfo :=
                  Some {| guest_name := guest_name guestInfo;
                          guest_email := guest_email guestInfo;
                          guest_phone := guest_phone guestInfo |} |}) ;;
      _ <- await th BookingPopulate Booking_populate ;;
      ret (GuestBookingCreated booking)
    end).

(* ------------------------------------------------------------------ *)
(** ** routes/cars.js: [router.get('/:id/availability', ...)] *)

Definition checkAvailability (th : Faults) (carId : Id)
    (startDate endDate : Date) : Store -> Store * Reply :=
  try_catch (
    car <- await th CarFindById (Car_findById carId) ;;
    match car with
    | None => respond CarNotFound
    | Some car =>
      conflictingBookings <-
        await th BookingFind
          (Booking_find
             (Booking.conflict_query carId
                [confirmed; active] startDate endDate)) ;;
      let isAvailable :=
        Nat.eqb (List.length conflictingBookings) 0 && Car.isAvailable car in
      ret (Availability isAvailable
             (map (fun booking =>
                     (Booking.startDate booking, Booking.endDate booking))
                conflictingBookings))
    end).

(* ------------------------------------------------------------------ *)
(** ** routes/admin.js: [router.put('/bookings/:id/status', ...)] *)

Definition updateBookingStatus (th : Faults) (bookingId : Id)
    (newStatus : Status) : Store -> Store * Reply :=
  try_catch (
    booking <-
      await th BookingFindByIdAndUpdate
        (Booking_findByIdAndUpdate bookingId newStatus) ;;
    match booking with
    | None => respond BookingNotFound
    | Some booking =>
      _ <- await th BookingPopulate Booking_populate ;;
      ret (StatusUpdated booking)
    end).

Local Close Scope handler_scope.

(* ------------------------------------------------------------------ *)
(** ** Either pathway *)

(** The two ways a reservation request arrives; [createReservation] is the
    specification's name for either handler. *)
Inductive Pathway : Set :=
| Authenticated (userId : Id)
| Guest (guestInfo : GuestInfo).

Definition createReservation (th : Faults) (now : Date) (p : Pathway)
    (req : BookingRequest) : Store -> Store * Reply :=
  match p with
  | Authenticated userId => createBooking th now userId req
  | Guest guestInfo => createGuestBooking th now req guestInfo
  end.

(* ------------------------------------------------------------------ *)
(** ** Vocabulary of the statements *)

(** The object literals the two handlers pass to [Booking.create], named
    for use in statements. *)
Definition auth_fields (userId : Id) (req : BookingRequest) (car : Car.t)
  : Booking.fields :=
  let totalDays :=
    Math_ceil_div (req_endDate req - req_startDate req) MS_PER_DAY in
  {| Booking.f_user := userId;
     Booking.f_car := req_car req;
     Booking.f_startDate := req_startDate req;
     Booking.f_endDate := req_endDate req;
     Booking.f_totalDays := totalDays;
     Booking.f_totalAmount := Number.mul_int totalDays (Car.pricePerDay car);
     Booking.f_pickupLocation := text (req_pickupLocation req);
     Booking.f_returnLocation := text (req_returnLocation req);
     Booking.f_specialRequests := req_specialRequests req;
     Booking.f_status := None;
     Booking.f_isGuestBooking := None;
     Booking.f_guestInfo := None |}.

Definition guest_fields (guestUser : User.t) (req : BookingRequest)
    (car : Car.t) (guestInfo : GuestInfo) : Booking.fields :=
  let totalDays :=
    Math_ceil_div (req_endDate req - req_startDate req) MS_PER_DAY in
  {| Booking.f_user := User.id guestUser;
     Booking.f_car := req_car req;
     Booking.f_startDate := req_startDate req;
     Booking.f_endDate := req_endDate req;
     Booking.f_totalDays := totalDays;
     Booking.f_totalAmount := Number.mul_int totalDays (Car.pricePerDay car);
     Booking.f_pickupLocation := text (req_pickupLocation req);
     Booking.f_returnLocation := text (req_returnLocation req);
     Booking.f_specialRequests := req_specialRequests req;
     Booking.f_status := Some pending;
     Booking.f_isGuestBooking := Some true;
     Booking.f_guestInfo :=
       Some {| guest_name := guest_name guestInfo;
               guest_email := guest_email guestInfo;
               guest_phone := guest_phone guestInfo |} |}.

(** The store once a booking list and a user list have been written. *)
Definition with_bookings (bs : list Booking.t) (st : Store) : Store :=
  {| cars := cars st; bookings := bs; users := users st |}.

Definition with_users (us : list User.t) (st : Store) : Store :=
  {| cars := cars st; bookings := bookings st; users := us |}.

(** The tail shared by both creation handlers, from [Booking.create] on,
    written out test by test ([createBooking_eq] and [createGuestBooking_eq]
    relate it to the handlers). *)
Definition persist (th : Faults) (f : Booking.fields)
    (reply : Booking.t -> Reply) (st : Store) : Store * Reply :=
  if th BookingCreate then (st, ServerError BookingCreate) else
  match Booking.create f (bookings st) with
  | None => (st, ServerError BookingCreate)
  | Some (bs, b) =>
      if th BookingPopulate
      then (with_bookings bs st, ServerError BookingPopulate)
      else (with_bookings bs st, reply b)
  end.

(** The document [Booking.create] stores for a literal that passes
    validation. *)
Definition stored (f : Booking.fields) (bs : list Booking.t) : Booking.t :=
  Booking.set_totalDays
    (Math_ceil_div (Booking.f_endDate f - Booking.f_startDate f) MS_PER_DAY)
    (Booking.construct (fresh (map Booking.id bs)) f).

(** A stored reservation of the requested car whose range meets the
    requested one. *)
Definition meets (req : BookingRequest) (st : Store) (b : Booking.t) : Prop :=
  In b (bookings st) /\ Booking.car b = req_car req /\
  Booking.startDate b <= req_endDate req /\
  Booking.endDate b >= req_startDate req.

(** The statuses that block a request, by pathway. *)
Definition blocks (p : Pathway) (s : Status) : Prop :=
  match p with
  | Authenticated _ => s = confirmed \/ s = active
  | Guest _ => s = pending \/ s = confirmed \/ s = active
  end.

(** Two requests for the same car and dates, one after the other, on the
    same pathway: the first is granted as a pending reservation and the
    second is turned down as a conflict. *)
Definition second_is_conflict (p : Pathway) (now1 now2 : Date)
    (req : BookingRequest) (st : Store) : Prop :=
  let (st1, r1) := createReservation no_faults now1 p req st in
  let (st2, r2) := createReservation no_faults now2 p req st1 in
  (exists b, created r1 = Some b /\ Booking.status b = pending) /\
  error_kind r2 = Some Conflict.

(** The guest identities of an email: user documents with that email and
    [isGuest = true]. *)
Definition guest_identities (e : string) (us : list User.t) : list User.t :=
  filter (User.is_guest_with e) us.

(** Ids are unique within the user collection ([_id] is a unique key). *)
Definition unique_user_ids (us : list User.t) : Prop :=
  NoDup (map User.id us).

(** The id guest bookings for an email go under: that of the identity on
    file, or else the id the identity will be created with. *)
Definition guest_id (e : string) (us : list User.t) : Id :=
  match User.findOne e us with
  | Some u => User.id u
  | None => fresh (map User.id us)
  end.

(* ------------------------------------------------------------------ *)
(** ** Runs of several guest requests *)

(** One guest request as it arrives: what the store does during it, the
    clock, the body. *)
Record GuestCall : Type := mkGuestCall {
  call_faults : Faults;
  call_now : Date;
  call_req : BookingRequest;
  call_guest : GuestInfo
}.

(** Guest requests served one after the other. *)
Fixpoint run_guest_calls (calls : list GuestCall) (st : Store)
  : Store * list Reply :=
  match calls with
  | [] => (st, [])
  | c :: rest =>
      let (st1, r) :=
        createGuestBooking (call_faults c) (call_now c) (call_req c)
          (call_guest c) st in
      let (st2, rs) := run_guest_calls rest st1 in
      (st2, r :: rs)
  end.

(* ------------------------------------------------------------------ *)
(** ** Calendar dates *)

(** [new Date("YYYY-MM-DD")]: a date-only ISO string denotes midnight UTC
    of that day of the proleptic Gregorian calendar. *)
Definition days_from_civil (y m d : Z) : Z :=
  let y' := if m <=? 2 then y - 1 else y in
  let era := y' / 400 in
  let yoe := y' - era * 400 in
  let mp := (m + 9) mod 12 in
  let doy := (153 * mp + 2) / 5 + d - 1 in
  let doe := yoe * 365 + yoe / 4 - yoe / 100 + doy in
  era * 146097 + doe - 719468.

Definition Date_of_ymd (y m d : Z) : Date := days_from_civil y m d * MS_PER_DAY.

(* ------------------------------------------------------------------ *)
(** ** Sample data *)

(** A store whose [populate] read rejects while every other call answers. *)
Definition populate_fails : Faults :=
  fun c => match c with BookingPopulate => true | _ => false end.


(** A store whose conflict query rejects. *)
Definition find_fails : Faults :=
  fun c => match c with BookingFind => true | _ => false end.

Definition sample_car : Car.t :=
  {| Car.id := 1%nat; Car.pricePerDay := Number.of_Z 50;
     Car.isAvailable := true |}.

Definition sample_store : Store :=
  {| cars := [sample_car]; bookings := []; users := [] |}.

(** The same store with the car at 2^53 - 1 a day, the largest whole number
    below which every whole number is a double. *)
Definition sample_store_costly : Store :=
  {| cars := [{| Car.id := 1%nat;
                 Car.pricePerDay := Number.of_Z 9007199254740991;
                 Car.isAvailable := true |}];
     bookings := []; users := [] |}.

Definition empty_store : Store := {| cars := []; bookings := []; users := [] |}.

Definition sample_request : BookingRequest :=
  {| req_car := 1%nat;
     req_startDate := Date_of_ymd 2099 1 10;
     req_endDate := Date_of_ymd 2099 1 13;
     req_pickupLocation := nonempty "A" "irport";
     req_returnLocation := nonempty "A" "irport";
     req_specialRequests := None |}.

Definition sample_now : Date := Date_of_ymd 2026 11 2.

Definition sample_guest : GuestInfo :=
  {| guest_name := "Ann"; guest_email := "ann@example.org";
     guest_phone := "555-0100" |}.

(** A store in which the sample car already carries a reservation for the
    sample dates, in a given status. *)
Definition sample_booking (s : Status) : Booking.t :=
  {| Booking.id := 1%nat; Booking.user := 7%nat; Booking.car := 1%nat;
     Booking.startDate := Date_of_ymd 2099 1 10;
     Booking.endDate := Date_of_ymd 2099 1 13;
     Booking.totalDays := 3; Booking.totalAmount := Number.of_Z 150;
     Booking.status := s; Booking.paymentStatus := PaymentStatus.pending;
     Booking.pickupLocation := "Airport";
     Booking.returnLocation := "Airport";
     Booking.specialRequests := None;
     Booking.isGuestBooking := false; Booking.guestInfo := None |}.

Definition sample_store_with (s : Status) : Store :=
  {| cars := [sample_car]; bookings := [sample_booking s]; users := [] |}.

Definition sample_store_unavailable : Store :=
  {| cars := [{| Car.id := 1%nat; Car.pricePerDay := Number.of_Z 50;
                 Car.isAvailable := false |}];
     bookings := [sample_booking confirmed]; users := [] |}.

(** The same guest booking twice, a month apart, under a new name and
    phone number the second time. *)
Definition sample_guest_renamed : GuestInfo :=
  {| guest_name := "Ann B."; guest_email := "ann@example.org";
     guest_phone := "555-0199" |}.

Definition sample_request_later : BookingRequest :=
  {| req_car := 1%nat;
     req_startDate := Date_of_ymd 2099 2 10;
     req_endDate := Date_of_ymd 2099 2 13;
     req_pickupLocation := nonempty "A" "irport";
     req_returnLocation := nonempty "S" "tation";
     req_specialRequests := None |}.

(** The sample store once the first guest request has been served, and the
    identity that request created. *)
Definition sample_store_after_guest : Store :=
  fst (createGuestBooking no_faults sample_now sample_request sample_guest
         sample_store).

Definition sample_guest_user : User.t :=
  {| User.id := 1%nat; User.name := "Ann"; User.email := "ann@example.org";
     User.phone := "555-0100"; User.role := User.role_guest;
     User.isGuest := true |}.

Definition sample_guest_calls : list GuestCall :=
  [ {| call_faults := no_faults; call_now := sample_now;
       call_req := sample_request; call_guest := sample_guest |};
    {| call_faults := no_faults; call_now := sample_now;
       call_req := sample_request_later;
       call_guest := sample_guest_renamed |} ].

(* ------------------------------------------------------------------ *)
(** ** Read routes: replies and plumbing

    [GET /api/bookings], [GET /api/bookings/:id] (routes/bookings.js),
    [GET /api/admin/dashboard] and [GET /api/admin/bookings]
    (routes/admin.js) only read the store, so their embedding takes the
    store and gives the reply.  The awaited calls of a handler are numbered
    in the order of the source; an oracle says which of them reject. *)

(** Why a read route ends in its [catch] block. *)
Inductive Failure : Set :=
| Rejected (call : nat)
| TypeError.

(** [req.query.status] as a query on the [status] path: absent or empty (no
    condition), one of the enum values, or a string that is none of them
    (a condition no document meets). *)
Inductive StatusFilter : Set :=
| AnyStatus
| OnlyStatus (s : Status)
| NoSuchStatus.

(** The [pagination] object of a list reply. *)
Record Pagination : Set := mkPagination {
  pg_page : Z;
  pg_limit : Z;
  pg_total : Z;
  pg_pages : Z
}.

(** The [stats] object of the dashboard reply. *)
Record Stats : Set := mkStats {
  totalCars : nat;
  availableCars : nat;
  totalBookings : nat;
  activeBookings : nat;
  totalUsers : nat;
  totalRevenue : Number.t
}.

(** The JSON replies of the read routes. *)
Inductive Answer : Set :=
| BookingData (data : Booking.t)
| NoSuchBooking
| NotAuthorized
| BookingList (data : list Booking.t) (pagination : Pagination)
| Dashboard (stats : Stats) (recentBookings : list Booking.t)
| Failed (why : Failure).

Definition answer_status (a : Answer) : nat :=
  match a with
  | BookingData _ | BookingList _ _ | Dashboard _ _ => 200
  | NoSuchBooking => 404
  | NotAuthorized => 403
  | Failed _ => 500
  end%nat.

Definition ReadFaults := nat -> bool.

Definition quiet : ReadFaults := fun _ => false.

(** A handler body under way: a value, or the reply already decided. *)
Definition Read (A : Type) : Type := (A + Answer)%type.

Definition read_bind {A B} (m : Read A) (k : A -> Read B) : Read B :=
  match m with
  | inl a => k a
  | inr r => inr r
  end.

Declare Scope read_scope.
Delimit Scope read_scope with read.

Notation "x <~ m ;; k" := (read_bind m (fun x => k))
  (at level 100, m at next level, right associativity) : read_scope.

(** The [call]-th [await] of a handler, on a query with result [v]. *)
Definition awaited {A} (th : ReadFaults) (call : nat) (v : A) : Read A :=
  if th call then inr (Failed (Rejected call)) else inl v.

(** The same for a query the server may refuse ([None]). *)
Definition awaited_checked {A} (th : ReadFaults) (call : nat) (v : option A)
  : Read A :=
  if th call then inr (Failed (Rejected call))
  else match v with
       | Some a => inl a
       | None => inr (Failed (Rejected call))
       end.

Definition answer (m : Read Answer) : Answer :=
  match m with
  | inl a => a
  | inr a => a
  end.

(** [parseInt(s) || d], with [None] for [NaN]: a missing, non-numeric or
    zero parameter gives the default. *)
Definition parseInt_or (v : option Z) (d : Z) : Z :=
  match v with
  | None => d
  | Some n => if n =? 0 then d else n
  end.

(** [.skip(n)]: the server refuses a negative skip. *)
Definition cursor_skip {A} (n : Z) (l : list A) : option (list A) :=
  if n <? 0 then None else Some (skipn (Z.to_nat n) l).

(** [.limit(n)]: zero is no limit; a negative limit counts as its absolute
    value. *)
Definition cursor_limit {A} (n : Z) (l : list A) : list A :=
  if n =? 0 then l else firstn (Z.to_nat (Z.abs n)) l.

Definition status_matches (f : StatusFilter) (b : Booking.t) : bool :=
  match f with
  | AnyStatus => true
  | OnlyStatus s => Status_eqb (Booking.status b) s
  | NoSuchStatus => false
  end.

Definition is_admin (r : User.Role) : bool :=
  match r with
  | User.role_admin => true
  | _ => false
  end.


Definition is_paid (b : Booking.t) : bool :=
  match Booking.paymentStatus b with
  | PaymentStatus.paid => true
  | _ => false
  end.

(** What [populate('user', ...)] puts in [booking.user]: the user document
    of that id, or [null]. *)
Definition populated_user (b : Booking.t) (st : Store) : option User.t :=
  List.find (fun u => Nat.eqb (User.id u) (Booking.user b)) (users st).

Local Open Scope read_scope.

(** [router.get('/:id', auth, ...)] of routes/bookings.js; [userId] and
    [role] are [req.user.id] and [req.user.role]. *)
Definition getBookingById (th : ReadFaults) (userId : Id) (role : User.Role)
    (bookingId : Id) (st : Store) : Answer :=
  answer (
    booking <~ awaited th 1 (Booking.findById bookingId (bookings st)) ;;
    match booking with
    | None => inr NoSuchBooking
    | Some booking =>
      match populated_user booking st with
      | None => inr (Failed TypeError)
      | Some user =>
        if negb (Nat.eqb (User.id user) userId) && negb (is_admin role)
        then inr NotAuthorized
        else inl (BookingData booking)
      end
    end).

(** [router.get('/', auth, ...)] of routes/bookings.js.  [page] and [limit]
    are [parseInt] of the query parameters; [newest_first] is
    [.sort({ createdAt: -1 })] (the booking record of this development
    carries no [createdAt], so the order is a parameter). *)
Definition getMyBookings (newest_first : list Booking.t -> list Booking.t)
    (th : ReadFaults) (userId : Id) (page limit : option Z)
    (status : StatusFilter) (st : Store) : Answer :=
  answer (
    let page := parseInt_or page 1 in
    let limit := parseInt_or limit 10 in
    let skip := (page - 1) * limit in
    let query := fun b =>
      Nat.eqb (Booking.user b) userId && status_matches status b in
    bookings_ <~
      awaited_checked th 1
        (option_map (cursor_limit limit)
           (cursor_skip skip
              (newest_first (Booking.find query (bookings st))))) ;;
    total <~
      awaited th 2
        (Z.of_nat (List.length (Booking.find query (bookings st)))) ;;
    inl (BookingList bookings_
           {| pg_page := page; pg_limit := limit; pg_total := total;
              pg_pages := Math_ceil_div total limit |})).

(** [router.get('/bookings', [auth, admin], ...)] of routes/admin.js. *)
Definition getAllBookings (newest_first : list Booking.t -> list Booking.t)
    (th : ReadFaults) (page limit : option Z) (status : StatusFilter)
    (st : Store) : Answer :=
  answer (
    let page := parseInt_or page 1 in
    let limit := parseInt_or limit 20 in
    let skip := (page - 1) * limit in
    let query := fun b => status_matches status b in
    bookings_ <~
      awaited_checked th 1
        (option_map (cursor_limit limit)
           (cursor_skip skip
              (newest_first (Booking.find query (bookings st))))) ;;
    total <~
      awaited th 2
        (Z.of_nat (List.length (Booking.find query (bookings st)))) ;;
    inl (BookingList bookings_
           {| pg_page := page; pg_limit := limit; pg_total := total;
              pg_pages := Math_ceil_div total limit |})).


Local Close Scope read_scope.

(* ------------------------------------------------------------------ *)
(** ** Vocabulary of the further statements *)

(** What the schema and the handlers establish of a stored reservation. *)
Definition sound_booking (b : Booking.t) : Prop :=
  Booking.startDate b < Booking.endDate b /\
  Booking.totalDays b
  = Math_ceil_div (Booking.endDate b - Booking.startDate b) MS_PER_DAY /\
  1 <= Booking.totalDays b /\
  0 <= Booking.totalAmount b.

(** Ids are unique within the booking collection. *)
Definition unique_booking_ids (bs : list Booking.t) : Prop :=
  NoDup (map Booking.id bs).

(** The [available] flag of an availability reply. *)
Definition says_available (r : Reply) : bool :=
  match r with
  | Availability a _ => a
  | _ => false
  end.

(** The page of a list reply, and the statistics of a dashboard reply. *)
Definition listed (a : Answer) : option (list Booking.t) :=
  match a with
  | BookingList data _ => Some data
  | _ => None
  end.

Definition pagination_of (a : Answer) : option Pagination :=
  match a with
  | BookingList _ pg => Some pg
  | _ => None
  end.

Definition stats_of (a : Answer) : option Stats :=
  match a with
  | Dashboard s _ => Some s
  | _ => None
  end.

Definition recent_of (a : Answer) : option (list Booking.t) :=
  match a with
  | Dashboard _ l => Some l
  | _ => None
  end.

(** The revenue figure of the dashboard, as a function of the collection. *)
Definition revenue (bs : list Booking.t) : Number.t :=
  fold_left (fun sum booking => Number.add sum (Booking.totalAmount booking))
    (Booking.find
       (fun b => Status_eqb (Booking.status b) completed && is_paid b) bs)
    0.

(** Pages [1 .. n] of a listing, one after the other. *)
Fixpoint pages_upto (page_data : Z -> list Booking.t) (n : nat)
  : list Booking.t :=
  match n with
  | O => []
  | S k => pages_upto page_data k ++ page_data (Z.of_nat (S k))
  end.

(** The body shared by the two list handlers, for a query, a page and a
    limit, written out ([getMyBookings_eq] and [getAllBookings_eq] relate
    it to the handlers). *)
Definition paged (newest_first : list Booking.t -> list Booking.t)
    (th : ReadFaults) (query : Booking.t -> bool) (page limit : Z)
    (st : Store) : Answer :=
  if th 1%nat then Failed (Rejected 1) else
  if (page - 1) * limit <? 0 then Failed (Rejected 1) else
  if th 2%nat then Failed (Rejected 2) else
  BookingList
    (cursor_limit limit
       (skipn (Z.to_nat ((page - 1) * limit))
          (newest_first (Booking.find query (bookings st)))))
    {| pg_page := page; pg_limit := limit;
       pg_total := Z.of_nat (List.length (Booking.find query (bookings st)));
       pg_pages :=
         Math_ceil_div
           (Z.of_nat (List.length (Booking.find query (bookings st))))
           limit |}.

(** The query of [GET /api/bookings]: [{ user: req.user.id }], with
    [status] when the parameter is given. *)
Definition my_query (userId : Id) (status : StatusFilter) (b : Booking.t)
  : bool :=
  Nat.eqb (Booking.user b) userId && status_matches status b.

(** The data of a list reply, empty for any other reply. *)
Definition data_of (a : Answer) : list Booking.t :=
  match a with
  | BookingList data _ => data
  | _ => []
  end.

(** Newest first when the collection holds its documents oldest first. *)
Definition newest_first_sample (l : list Booking.t) : list Booking.t := rev l.

(** A registered user beside the sample data, for the read routes. *)
Definition sample_user : User.t :=
  {| User.id := 7%nat; User.name := "Bo"; User.email := "bo@example.org";
     User.phone := "555-0123"; User.role := User.role_user;
     User.isGuest := false |}.

Definition sample_store_with_user (s : Status) : Store :=
  {| cars := [sample_car]; bookings := [sample_booking s];
     users := [sample_user] |}.

(* ------------------------------------------------------------------ *)
(** ** Basic facts *)

Lemma Status_eqb_eq (a b : Status) : Status_eqb a b = true <-> a = b.
Proof. destruct a, b; simpl; split; congruence. Qed.

Lemma status_in_list (s : Status) (l : list Status) :
  existsb (Status_eqb s) l = true <-> In s l.
Proof.
  rewrite existsb_exists. split.
  - intros [x [Hin Heq]]. apply Status_eqb_eq in Heq. now subst.
  - intros Hin. exists s. split; [assumption | now apply Status_eqb_eq].
Qed.

Lemma overlaps_spec (s1 e1 s2 e2 : Date) :
  Booking.overlaps s1 e1 s2 e2 = true <-> s1 <= e2 /\ e1 >= s2.
Proof.
  unfold Booking.overlaps. rewrite andb_true_iff, Z.leb_le, Z.geb_le. lia.
Qed.

Lemma conflict_query_spec carId statuses start end_ b :
  Booking.conflict_query carId statuses start end_ b = true <->
  Booking.car b = carId /\ In (Booking.status b) statuses /\
  Booking.startDate b <= end_ /\ Booking.endDate b >= start.
Proof.
  unfold Booking.conflict_query.
  rewrite !andb_true_iff, Nat.eqb_eq, status_in_list, overlaps_spec. tauto.
Qed.

Lemma find_spec (q : Booking.t -> bool) bs b :
  In b (Booking.find q bs) <-> In b bs /\ q b = true.
Proof. unfold Booking.find. apply filter_In. Qed.

Lemma nonempty_iff {A} (l : list A) :
  (0 <? List.length l)%nat = true <-> exists x, In x l.
Proof.
  destruct l as [|x l]; simpl.
  - split; [discriminate | intros [x []]].
  - split; [intros _; exists x; now left | reflexivity].
Qed.

Lemma some_conflict_iff (q : Booking.t -> bool) bs :
  (0 <? List.length (Booking.find q bs))%nat = true <->
  exists b, In b bs /\ q b = true.
Proof.
  rewrite nonempty_iff. split; intros [b Hb]; exists b; now apply find_spec.
Qed.

(* ------------------------------------------------------------------ *)
(** ** The overlap test *)

(** C1.  The date test of the conflict query holds of a stored range
    [s1, e1] and a requested range [s2, e2] exactly when [s1 <= e2] and
    [e1 >= s2]; two well-formed ranges that touch at a boundary therefore
    conflict; and the bookings a conflict query returns are those of the
    car, in a listed status, that pass this test. *)
Theorem C1_overlap_test (s1 e1 s2 e2 : Date) :
  (Booking.overlaps s1 e1 s2 e2 = true <-> s1 <= e2 /\ e1 >= s2) /\
  (s1 <= e1 -> s2 <= e2 -> e1 = s2 \/ e2 = s1 ->
   Booking.overlaps s1 e1 s2 e2 = true) /\
  (forall carId statuses bs b,
      In b (Booking.find (Booking.conflict_query carId statuses s2 e2) bs) <->
      In b bs /\ Booking.car b = carId /\ In (Booking.status b) statuses /\
      Booking.overlaps (Booking.startDate b) (Booking.endDate b) s2 e2 = true).
Proof.
  split; [apply overlaps_spec | split].
  - intros H1 H2 Htouch. apply overlaps_spec. lia.
  - intros carId statuses bs b.
    rewrite find_spec, conflict_query_spec, overlaps_spec. tauto.
Qed.

Lemma C1_overlap_test_witness :
  Booking.overlaps 1 5 5 9 = true /\ Booking.overlaps 5 9 1 5 = true.
Proof.
  split.
  - apply (proj1 (proj2 (C1_overlap_test 1 5 5 9))); [lia | lia | left; reflexivity].
  - apply (proj1 (proj2 (C1_overlap_test 5 9 1 5))); [lia | lia | right; reflexivity].
Defined.

(* ------------------------------------------------------------------ *)
(** ** The handlers, branch by branch *)

Ltac unfold_handler :=
  unfold createBooking, createGuestBooking, checkAvailability,
    updateBookingStatus, try_catch, bind, await, await_checked, respond, ret,
    Car_findById, Booking_find, Booking_create, Booking_populate,
    User_findOne, User_create, User_save, Booking_findByIdAndUpdate, persist,
    with_bookings, with_users, auth_fields, guest_fields;
  cbn beta iota zeta.

(* Follow the branches of the right-hand side, outermost test first. *)
Ltac follow_branches :=
  repeat (cbn beta iota zeta;
          match goal with
          | |- _ = (if ?c then _ else _) => destruct c
          | |- _ = match ?x with _ => _ end => destruct x
          end);
  try reflexivity.

Lemma createBooking_eq th now userId req st :
  createBooking th now userId req st =
  if req_startDate req <=? now then (st, StartNotInFuture) else
  if req_endDate req <=? req_startDate req then (st, EndNotAfterStart) else
  if th CarFindById then (st, ServerError CarFindById) else
  match Car.findById (req_car req) (cars st) with
  | None => (st, CarNotFound)
  | Some car =>
    if negb (Car.isAvailable car) then (st, CarNotAvailable) else
    if th BookingFind then (st, ServerError BookingFind) else
    if (0 <? List.length
               (Booking.find
                  (Booking.conflict_query (req_car req) [confirmed; active]
                     (req_startDate req) (req_endDate req))
                  (bookings st)))%nat
    then (st, DatesTaken)
    else persist th (auth_fields userId req car) BookingCreated st
  end.
Proof.
  unfold_handler. follow_branches.
Qed.

Lemma createGuestBooking_eq th now req g st :
  createGuestBooking th now req g st =
  if req_startDate req <=? now then (st, StartNotInFuture) else
  if req_endDate req <=? req_startDate req then (st, EndNotAfterStart) else
  if th CarFindById then (st, ServerError CarFindById) else
  match Car.findById (req_car req) (cars st) with
  | None => (st, CarNotFound)
  | Some car =>
    if negb (Car.isAvailable car) then (st, CarNotAvailable) else
    if th BookingFind then (st, ServerError BookingFind) else
    if (0 <? List.length
               (Booking.find
                  (Booking.conflict_query (req_car req)
                     [confirmed; active; pending]
                     (req_startDate req) (req_endDate req))
                  (bookings st)))%nat
    then (st, DatesTaken) else
    if th UserFindOne then (st, ServerError UserFindOne) else
    match User.findOne (guest_email g) (users st) with
    | None =>
        if th UserCreate then (st, ServerError UserCreate) else
        let (us, u) :=
          User.create (guest_name g) (guest_email g) (guest_phone g)
            (users st) in
        persist th (guest_fields u req car g) GuestBookingCreated
          (with_users us st)
    | Some u =>
        let u' := User.set_contact (guest_name g) (guest_phone g) u in
        if th UserSave then (st, ServerError UserSave) else
        persist th (guest_fields u' req car g) GuestBookingCreated
          (with_users (User.save u' (users st)) st)
    end
  end.
Proof.
  unfold_handler. unfold User.create. destruct g as [gn ge gp].
  follow_branches.
Qed.

Lemma checkAvailability_eq th carId startDate endDate st :
  checkAvailability th carId startDate endDate st =
  if th CarFindById then (st, ServerError CarFindById) else
  match Car.findById carId (cars st) with
  | None => (st, CarNotFound)
  | Some car =>
    if th BookingFind then (st, ServerError BookingFind) else
    let conflicting :=
      Booking.find
        (Booking.conflict_query carId [confirmed; active] startDate endDate)
        (bookings st) in
    (st, Availability
           (Nat.eqb (List.length conflicting) 0 && Car.isAvailable car)
           (map (fun b => (Booking.startDate b, Booking.endDate b))
              conflicting))
  end.
Proof. unfold_handler. follow_branches. Qed.

Lemma updateBookingStatus_eq th bookingId newStatus st :
  updateBookingStatus th bookingId newStatus st =
  if th BookingFindByIdAndUpdate
  then (st, ServerError BookingFindByIdAndUpdate) else
  match Booking.findById bookingId (bookings st) with
  | None => (with_bookings (bookings st) st, BookingNotFound)
  | Some b =>
    let st' :=
      with_bookings (Booking.update_status bookingId newStatus (bookings st))
        st in
    if th BookingPopulate then (st', ServerError BookingPopulate)
    else (st', StatusUpdated (Booking.set_status newStatus b))
  end.
Proof.
  unfold_handler. unfold Booking.findByIdAndUpdate. follow_branches.
Qed.

Lemma with_bookings_same st : with_bookings (bookings st) st = st.
Proof. now destruct st. Qed.

(** What the tail of a creation handler can answer. *)
Lemma persist_cases th f reply st :
  (persist th f reply st = (st, ServerError BookingCreate)) \/
  (exists bs b,
      Booking.create f (bookings st) = Some (bs, b) /\
      ((th BookingPopulate = true /\
        persist th f reply st =
        (with_bookings bs st, ServerError BookingPopulate)) \/
       (th BookingCreate = false /\ th BookingPopulate = false /\
        persist th f reply st = (with_bookings bs st, reply b)))).
Proof.
  unfold persist. destruct (th BookingCreate) eqn:Hc; [now left|].
  destruct (Booking.create f (bookings st)) as [[bs b]|] eqn:Hb; [|now left].
  right. exists bs, b. split; [reflexivity|].
  destruct (th BookingPopulate); [left | right]; auto.
Qed.

Lemma persist_not_business th f reply st r :
  (forall b, reply b <> r) ->
  (forall c, r <> ServerError c) ->
  snd (persist th f reply st) <> r.
Proof.
  intros Hreply Herr.
  destruct (persist_cases th f reply st) as [H | (bs & b & _ & [[_ H] | (_ & _ & H)])];
    rewrite H; simpl; auto.
Qed.

(* ------------------------------------------------------------------ *)
(** ** Blocking statuses *)

(** Whether a request that reaches the conflict query is answered "dates
    taken". *)
Lemma conflict_reply_iff th now p req st car :
  th CarFindById = false -> th BookingFind = false ->
  now < req_startDate req -> req_startDate req < req_endDate req ->
  Car.findById (req_car req) (cars st) = Some car ->
  Car.isAvailable car = true ->
  (snd (createReservation th now p req st) = DatesTaken <->
   exists b, meets req st b /\ blocks p (Booking.status b)).
Proof.
  intros Hcar Hfind Hnow Hrange Hfound Havail.
  assert (Hs : (req_startDate req <=? now) = false) by (apply Z.leb_gt; lia).
  assert (He : (req_endDate req <=? req_startDate req) = false)
    by (apply Z.leb_gt; lia).
  destruct p as [userId | g]; simpl.
  - rewrite createBooking_eq, Hs, He, Hcar, Hfound, Havail, Hfind. simpl negb.
    cbv iota.
    destruct (0 <? _)%nat eqn:Hq.
    + split; [intros _ | reflexivity].
      apply some_conflict_iff in Hq. destruct Hq as [b [Hin Hb]].
      apply conflict_query_spec in Hb. destruct Hb as (Hc & Hst & Hlo & Hhi).
      exists b. split; [now repeat split|].
      simpl in Hst. intuition congruence.
    + split.
      * intros H. exfalso. revert H.
        apply persist_not_business; intros; discriminate.
      * intros [b [(Hin & Hc & Hlo & Hhi) Hst]]. exfalso.
        assert (Hq' : (0 <? List.length
                  (Booking.find
                     (Booking.conflict_query (req_car req) [confirmed; active]
                        (req_startDate req) (req_endDate req))
                     (bookings st)))%nat = true).
        { apply some_conflict_iff. exists b. split; [assumption|].
          apply conflict_query_spec. repeat split; try assumption.
          simpl. intuition. }
        congruence.
  - rewrite createGuestBooking_eq, Hs, He, Hcar, Hfound, Havail, Hfind.
    simpl negb. cbv iota.
    destruct (0 <? _)%nat eqn:Hq.
    + split; [intros _ | reflexivity].
      apply some_conflict_iff in Hq. destruct Hq as [b [Hin Hb]].
      apply conflict_query_spec in Hb. destruct Hb as (Hc & Hst & Hlo & Hhi).
      exists b. split; [now repeat split|].
      simpl in Hst. intuition congruence.
    + split.
      * intros H. exfalso. revert H.
        destruct (th UserFindOne); [discriminate|].
        destruct (User.findOne _ _).
        -- cbv zeta. destruct (th UserSave); [discriminate|].
           apply persist_not_business; intros; discriminate.
        -- destruct (th UserCreate); [discriminate|].
           destruct (User.create _ _ _ _).
           apply persist_not_business; intros; discriminate.
      * intros [b [(Hin & Hc & Hlo & Hhi) Hst]]. exfalso.
        assert (Hq' : (0 <? List.length
                  (Booking.find
                     (Booking.conflict_query (req_car req)
                        [confirmed; active; pending]
                        (req_startDate req) (req_endDate req))
                     (bookings st)))%nat = true).
        { apply some_conflict_iff. exists b. split; [assumption|].
          apply conflict_query_spec. repeat split; try assumption.
          simpl. intuition. }
        congruence.
Qed.

(** C2.  For a request that reaches the conflict query (valid dates, an
    existing car flagged available, the store answering), the authenticated
    handler answers "dates taken" exactly when a reservation of the car in
    status confirmed or active meets the requested range, and the guest
    handler exactly when one in status pending, confirmed or active does;
    reservations in status cancelled or completed block neither. *)
Theorem C2_blocking_statuses th now userId req g st car :
  th CarFindById = false -> th BookingFind = false ->
  now < req_startDate req -> req_startDate req < req_endDate req ->
  Car.findById (req_car req) (cars st) = Some car ->
  Car.isAvailable car = true ->
  (snd (createBooking th now userId req st) = DatesTaken <->
   exists b, meets req st b /\
             (Booking.status b = confirmed \/ Booking.status b = active)) /\
  (snd (createGuestBooking th now req g st) = DatesTaken <->
   exists b, meets req st b /\
             (Booking.status b = pending \/ Booking.status b = confirmed \/
              Booking.status b = active)) /\
  ((forall b, meets req st b ->
              Booking.status b = cancelled \/ Booking.status b = completed) ->
   snd (createBooking th now userId req st) <> DatesTaken /\
   snd (createGuestBooking th now req g st) <> DatesTaken).
Proof.
  intros Hcar Hfind Hnow Hrange Hfound Havail.
  pose proof (conflict_reply_iff th now (Authenticated userId) req st car
                Hcar Hfind Hnow Hrange Hfound Havail) as Hauth.
  pose proof (conflict_reply_iff th now (Guest g) req st car
                Hcar Hfind Hnow Hrange Hfound Havail) as Hguest.
  simpl in Hauth, Hguest.
  split; [exact Hauth | split; [exact Hguest|]].
  intros Hfree. split.
  - intros H. apply Hauth in H. destruct H as [b [Hm Hst]].
    destruct (Hfree b Hm); intuition congruence.
  - intros H. apply Hguest in H. destruct H as [b [Hm Hst]].
    destruct (Hfree b Hm); intuition congruence.
Qed.

Lemma C2_blocking_statuses_witness :
  snd (createBooking no_faults sample_now 7%nat sample_request
         (sample_store_with pending)) <> DatesTaken /\
  snd (createGuestBooking no_faults sample_now sample_request sample_guest
         (sample_store_with pending)) = DatesTaken /\
  snd (createBooking no_faults sample_now 7%nat sample_request
         (sample_store_with cancelled)) <> DatesTaken.
Proof.
  destruct (C2_blocking_statuses no_faults sample_now 7%nat sample_request
              sample_guest (sample_store_with pending) sample_car
              eq_refl eq_refl eq_refl eq_refl eq_refl eq_refl)
    as (Hauth & Hguest & _).
  destruct (C2_blocking_statuses no_faults sample_now 7%nat sample_request
              sample_guest (sample_store_with cancelled) sample_car
              eq_refl eq_refl eq_refl eq_refl eq_refl eq_refl)
    as (_ & _ & Hfree).
  split; [|split].
  - intros H. apply Hauth in H.
    destruct H as [b [([<- | []] & _) [H | H]]]; discriminate H.
  - apply Hguest. exists (sample_booking pending).
    split; [|left; reflexivity].
    split; [now left|]. split; [reflexivity|].
    split; vm_compute; discriminate.
  - apply Hfree. intros b ([<- | []] & _). left. reflexivity.
Defined.

(* ------------------------------------------------------------------ *)
(** ** Rounding to a double *)

Lemma infinity_pos : 0 < Number.infinity.
Proof. unfold Number.infinity. apply Z.pow_pos_nonneg; lia. Qed.

(** What [Number.round_pos] does from 2^53 on: [q] keeps 53 bits, [r] is
    what is cut off, [d] rounds up or down. *)
Lemma round_pos_shape (x : Z) :
  2 ^ 53 <= x ->
  exists e q r d,
    e = Z.log2 x - 52 /\ 1 <= e /\
    x = q * 2 ^ e + r /\ 0 <= r < 2 ^ e /\
    2 ^ 52 <= q < 2 ^ 53 /\
    2 * 2 ^ (e - 1) = 2 ^ e /\
    (d = 0 \/ d = 1) /\
    d = (if r <? 2 ^ (e - 1) then 0
         else if 2 ^ (e - 1) <? r then 1
         else if Z.even q then 0 else 1) /\
    Number.round_pos x = (q + d) * 2 ^ e.
Proof.
  intros Hx.
  assert (H53 : 0 < 2 ^ 53) by (apply Z.pow_pos_nonneg; lia).
  assert (Hpos : 0 < x) by lia.
  pose proof (Z.log2_spec x Hpos) as [Hlo Hhi].
  assert (Hl : 53 <= Z.log2 x).
  { apply Z.log2_le_pow2; assumption. }
  set (e := Z.log2 x - 52) in *.
  assert (He : 1 <= e) by (unfold e; lia).
  assert (HP : 0 < 2 ^ e) by (apply Z.pow_pos_nonneg; lia).
  assert (Hsplit : 2 ^ Z.log2 x = 2 ^ 52 * 2 ^ e).
  { rewrite <- Z.pow_add_r by lia. f_equal. unfold e. lia. }
  assert (Hsplit' : 2 ^ Z.succ (Z.log2 x) = 2 ^ 53 * 2 ^ e).
  { rewrite <- Z.pow_add_r by lia. f_equal. unfold e. lia. }
  assert (Hh : 2 * 2 ^ (e - 1) = 2 ^ e).
  { replace e with (1 + (e - 1)) at 2 by lia.
    rewrite Z.pow_add_r by lia. reflexivity. }
  pose proof (Z.div_mod x (2 ^ e) ltac:(lia)) as Hdm.
  pose proof (Z.mod_pos_bound x (2 ^ e) HP) as Hr.
  set (q := x / 2 ^ e) in *. set (r := x mod 2 ^ e) in *.
  assert (Hq : 2 ^ 52 <= q < 2 ^ 53).
  { assert (0 < 2 ^ 52) by (apply Z.pow_pos_nonneg; lia). split; nia. }
  exists e, q, r,
    (if r <? 2 ^ (e - 1) then 0
     else if 2 ^ (e - 1) <? r then 1
     else if Z.even q then 0 else 1).
  split; [reflexivity|]. split; [assumption|].
  split; [lia|]. split; [assumption|]. split; [assumption|].
  split; [assumption|]. split.
  { destruct (r <? 2 ^ (e - 1)); [now left|].
    destruct (2 ^ (e - 1) <? r); [now right|].
    destruct (Z.even q); auto. }
  split; [reflexivity|].
  unfold Number.round_pos.
  destruct (x <? 2 ^ 53) eqn:Hlt; [apply Z.ltb_lt in Hlt; lia|].
  fold e. fold q. fold r.
  destruct (r <? 2 ^ (e - 1)); [f_equal; lia|].
  destruct (2 ^ (e - 1) <? r); [reflexivity|].
  destruct (Z.even q); [f_equal; lia | reflexivity].
Qed.

Lemma round_pos_small x : x < 2 ^ 53 -> Number.round_pos x = x.
Proof.
  intros H. unfold Number.round_pos.
  destruct (x <? 2 ^ 53) eqn:Hlt; [reflexivity|].
  apply Z.ltb_ge in Hlt. lia.
Qed.

Lemma round_pos_mono x y :
  0 <= x <= y -> Number.round_pos x <= Number.round_pos y.
Proof.
  intros [Hx Hxy].
  assert (H53 : 0 < 2 ^ 53) by (apply Z.pow_pos_nonneg; lia).
  assert (H5253 : 2 * 2 ^ 52 = 2 ^ 53) by reflexivity.
  destruct (Z_lt_ge_dec y (2 ^ 53)) as [Hy | Hy].
  - rewrite !round_pos_small by lia. assumption.
  - destruct (round_pos_shape y ltac:(lia))
      as (ey & qy & ry & dy & Hey & Hey1 & Hyeq & Hry & Hqy & Hhy & Hdy &
          Hdy' & ->).
    assert (HPy : 0 < 2 ^ ey) by (apply Z.pow_pos_nonneg; lia).
    destruct (Z_lt_ge_dec x (2 ^ 53)) as [Hx53 | Hx53].
    + rewrite round_pos_small by lia.
      assert (2 <= 2 ^ ey).
      { change 2 with (2 ^ 1) at 1. apply Z.pow_le_mono_r; lia. }
      nia.
    + destruct (round_pos_shape x ltac:(lia))
        as (ex & qx & rx & dx & Hex & Hex1 & Hxeq & Hrx & Hqx & Hhx & Hdx &
            Hdx' & ->).
      assert (HPx : 0 < 2 ^ ex) by (apply Z.pow_pos_nonneg; lia).
      assert (Hle : ex <= ey).
      { subst ex ey. pose proof (Z.log2_le_mono x y Hxy). lia. }
      destruct (Z.eq_dec ex ey) as [Heq | Hne].
      * rewrite Heq in *. clear Heq.
        assert (Hqle : qx <= qy) by nia.
        destruct (Z.eq_dec qx qy) as [Hq | Hq].
        -- subst qy. assert (Hr : rx <= ry) by lia.
           assert (dx <= dy).
           { rewrite Hdx', Hdy'.
             destruct (rx <? 2 ^ (ey - 1)) eqn:H1;
               destruct (ry <? 2 ^ (ey - 1)) eqn:H2;
               destruct (2 ^ (ey - 1) <? rx) eqn:H3;
               destruct (2 ^ (ey - 1) <? ry) eqn:H4;
               destruct (Z.even qx);
               try apply Z.ltb_lt in H1; try apply Z.ltb_ge in H1;
               try apply Z.ltb_lt in H2; try apply Z.ltb_ge in H2;
               try apply Z.ltb_lt in H3; try apply Z.ltb_ge in H3;
               try apply Z.ltb_lt in H4; try apply Z.ltb_ge in H4;
               lia. }
           nia.
        -- assert (qx + 1 <= qy) by lia. nia.
      * assert (Hpow : 2 * 2 ^ ex <= 2 ^ ey).
        { replace (2 * 2 ^ ex) with (2 ^ (ex + 1))
            by (rewrite Z.pow_add_r by lia; lia).
          apply Z.pow_le_mono_r; lia. }
        assert ((qx + dx) * 2 ^ ex <= 2 ^ 53 * 2 ^ ex) by nia.
        assert (2 ^ 52 * 2 ^ ey <= (qy + dy) * 2 ^ ey) by nia.
        nia.
Qed.

Lemma round_pos_nonneg x : 0 <= x -> 0 <= Number.round_pos x.
Proof.
  intros Hx. change 0 with (Number.round_pos 0) at 1.
  apply round_pos_mono. lia.
Qed.

Lemma round_pos_pos x : 0 < x -> 0 < Number.round_pos x.
Proof.
  intros Hx.
  assert (Number.round_pos 1 <= Number.round_pos x)
    by (apply round_pos_mono; lia).
  change (Number.round_pos 1) with 1 in H. lia.
Qed.

Lemma round_mono x y : x <= y -> Number.round x <= Number.round y.
Proof.
  intros Hxy. unfold Number.round.
  pose proof infinity_pos.
  assert (Hin :
    (if 0 <=? x then Number.round_pos x else - Number.round_pos (- x))
    <= (if 0 <=? y then Number.round_pos y else - Number.round_pos (- y))).
  { destruct (0 <=? x) eqn:Hx; destruct (0 <=? y) eqn:Hy;
      try apply Z.leb_le in Hx; try apply Z.leb_gt in Hx;
      try apply Z.leb_le in Hy; try apply Z.leb_gt in Hy.
    - apply round_pos_mono. lia.
    - lia.
    - pose proof (round_pos_pos (- x) ltac:(lia)).
      pose proof (round_pos_nonneg y ltac:(lia)). lia.
    - pose proof (round_pos_mono (- y) (- x) ltac:(lia)). lia. }
  lia.
Qed.

Lemma round_sign x : 0 <= Number.round x <-> 0 <= x.
Proof.
  unfold Number.round. pose proof infinity_pos.
  destruct (0 <=? x) eqn:Hx;
    [apply Z.leb_le in Hx | apply Z.leb_gt in Hx].
  - pose proof (round_pos_nonneg x Hx). lia.
  - pose proof (round_pos_pos (- x) ltac:(lia)). lia.
Qed.

Lemma round_pos_exact m e :
  0 <= e -> 0 <= m < 2 ^ 53 -> Number.round_pos (m * 2 ^ e) = m * 2 ^ e.
Proof.
  intros He Hm.
  assert (HP : 0 < 2 ^ e) by (apply Z.pow_pos_nonneg; lia).
  destruct (Z_lt_ge_dec (m * 2 ^ e) (2 ^ 53)) as [Hs | Hs];
    [now apply round_pos_small|].
  assert (Hm0 : 0 < m) by nia.
  destruct (round_pos_shape (m * 2 ^ e) ltac:(lia))
    as (E & q & r & d & HE & HE1 & Hxeq & Hr & Hq & Hh & Hd & Hd' & Hrnd).
  rewrite Hrnd. clear Hrnd.
  assert (Hlog : Z.log2 (m * 2 ^ e) = e + Z.log2 m)
    by (apply Z.log2_mul_pow2; lia).
  assert (Hlm : Z.log2 m < 53) by (apply Z.log2_lt_pow2; lia).
  assert (HEe : E <= e) by lia.
  assert (HPE : 0 < 2 ^ E) by (apply Z.pow_pos_nonneg; lia).
  assert (Hfac : 2 ^ e = 2 ^ (e - E) * 2 ^ E).
  { rewrite <- Z.pow_add_r by lia. f_equal. lia. }
  assert (Hr0 : r = 0 /\ q = m * 2 ^ (e - E)).
  { assert (Hx' : m * 2 ^ e = (m * 2 ^ (e - E)) * 2 ^ E + 0)
      by (rewrite Hfac; ring).
    rewrite Hx' in Hxeq.
    assert (Huniq : m * 2 ^ (e - E) = q /\ 0 = r).
    { apply (Z.div_mod_unique (2 ^ E)); try lia. }
    destruct Huniq; auto. }
  destruct Hr0 as [-> ->].
  assert (Hhpos : 0 < 2 ^ (E - 1)) by (apply Z.pow_pos_nonneg; lia).
  assert (Hd0 : d = 0).
  { rewrite Hd'. destruct (0 <? 2 ^ (E - 1)) eqn:H0; [reflexivity|].
    apply Z.ltb_ge in H0. lia. }
  rewrite Hd0, Z.add_0_r, Hfac. ring.
Qed.

Lemma round_exact x : Number.representable x -> Number.round x = x.
Proof.
  intros [Hfin (m & e & He & Hm & ->)]. unfold Number.round.
  assert (HP : 0 < 2 ^ e) by (apply Z.pow_pos_nonneg; lia).
  destruct (0 <=? m * 2 ^ e) eqn:Hs;
    [apply Z.leb_le in Hs | apply Z.leb_gt in Hs].
  - rewrite round_pos_exact by nia. lia.
  - replace (- (m * 2 ^ e)) with ((- m) * 2 ^ e) by ring.
    rewrite round_pos_exact by nia. lia.
Qed.

(** A whole multiple of a number does not change its sign. *)
Lemma mul_int_sign k x : 0 < k -> (0 <= Number.mul_int k x <-> 0 <= x).
Proof.
  intros Hk. unfold Number.mul_int. rewrite round_sign. nia.
Qed.

(** More days at a non-negative price never cost less. *)
Lemma mul_int_mono k1 k2 x :
  k1 <= k2 -> 0 <= x -> Number.mul_int k1 x <= Number.mul_int k2 x.
Proof.
  intros Hk Hx. unfold Number.mul_int. apply round_mono. nia.
Qed.

Lemma mul_int_exact k x :
  Number.representable (k * x) -> Number.mul_int k x = k * x.
Proof. apply round_exact. Qed.

(** Whole prices: the product is exact while it stays below 2^53. *)
Lemma mul_int_of_Z k n :
  Z.abs (k * n) < 2 ^ 53 ->
  Number.mul_int k (Number.of_Z n) = Number.of_Z (k * n).
Proof.
  intros Hb. unfold Number.of_Z.
  replace (k * n * Number.one) with (k * (n * Number.one)) by ring.
  apply mul_int_exact. split.
  - replace (k * (n * Number.one)) with (k * n * Number.one) by ring.
    rewrite Z.abs_mul.
    assert (H53 : 0 < 2 ^ 53) by reflexivity.
    assert (Hone : Z.abs Number.one = 2 ^ 1074) by reflexivity.
    assert (Hinf : Number.infinity = 2 ^ 1024 * 2 ^ 1074) by reflexivity.
    assert (H1024 : 2 ^ 53 < 2 ^ 1024) by reflexivity.
    assert (Hp : 0 < 2 ^ 1074) by reflexivity.
    rewrite Hone, Hinf. nia.
  - exists (k * n), 1074. split; [lia|]. split; [assumption|].
    unfold Number.one. ring.
Qed.


(* ------------------------------------------------------------------ *)
(** ** Duration and price *)

Lemma MS_PER_DAY_pos : 0 < MS_PER_DAY.
Proof. reflexivity. Qed.

(** [Math_ceil_div n d] is the least integer [k] with [n <= k * d]. *)
Lemma Math_ceil_div_spec (n d : Z) :
  0 < d ->
  (Math_ceil_div n d - 1) * d < n <= Math_ceil_div n d * d.
Proof.
  intros Hd. unfold Math_ceil_div.
  pose proof (Z.div_mod (- n) d ltac:(lia)) as Hdm.
  pose proof (Z.mod_pos_bound (- n) d Hd) as Hb.
  nia.
Qed.

Lemma Math_ceil_div_pos (n d : Z) : 0 < d -> 0 < n -> 1 <= Math_ceil_div n d.
Proof.
  intros Hd Hn. pose proof (Math_ceil_div_spec n d Hd). nia.
Qed.

Lemma ceil_unique (n d c : Z) :
  0 < d -> (c - 1) * d < n <= c * d -> Math_ceil_div n d = c.
Proof.
  intros Hd Hc. pose proof (Math_ceil_div_spec n d Hd). nia.
Qed.

(** Below 2^53 the ceiling of the double quotient is the exact ceiling:
    the quotient keeps 53 bits, and no multiple of [1 / d] other than a
    whole number comes within half a unit of its last bit of one. *)
Lemma ceil_quotient_exact (n d : Z) :
  0 < n < 2 ^ 53 -> 0 < d ->
  Number.ceil_quotient n d = Math_ceil_div n d.
Proof.
  intros [Hn Hn53] Hd.
  assert (Hln : Z.log2 n < 53) by (apply Z.log2_lt_pow2; lia).
  pose proof (Z.log2_nonneg n) as Hln0.
  pose proof (Z.log2_nonneg d) as Hld0.
  pose proof (Z.log2_spec n Hn) as [Hnlo Hnhi].
  pose proof (Z.log2_spec d Hd) as [Hdlo Hdhi].
  unfold Number.ceil_quotient. cbv zeta. cbn [fst snd].
  set (s0 := 52 - (Z.log2 n - Z.log2 d)).
  assert (Hs0 : 0 <= s0) by (unfold s0; lia).
  rewrite (Z.max_l s0 0), (Z.max_r (- s0) 0) by lia.
  change (2 ^ 0) with 1. rewrite Z.mul_1_r.
  set (s := if n * 2 ^ s0 <? d * 2 ^ 52 then s0 + 1 else s0).
  assert (Hs : 0 <= s) by (unfold s; destruct (_ <? _); lia).
  rewrite (Z.max_l s 0), (Z.max_r (- s) 0) by lia.
  change (2 ^ 0) with 1. rewrite Z.mul_1_r.
  assert (HP : 0 < 2 ^ s) by (apply Z.pow_pos_nonneg; lia).
  assert (H52 : 0 < 2 ^ 52) by reflexivity.
  assert (Hnorm : d * 2 ^ 52 <= n * 2 ^ s).
  { unfold s. destruct (n * 2 ^ s0 <? d * 2 ^ 52) eqn:Ht.
    - assert (E : 2 ^ Z.log2 n * 2 ^ (s0 + 1)
                  = 2 ^ Z.succ (Z.log2 d) * 2 ^ 52).
      { rewrite <- !Z.pow_add_r by lia. f_equal. unfold s0. lia. }
      assert (0 < 2 ^ (s0 + 1)) by (apply Z.pow_pos_nonneg; lia).
      nia.
    - apply Z.ltb_ge in Ht. assumption. }
  assert (Hbig : d < 2 * 2 ^ s).
  { assert (H5253 : 2 ^ 53 = 2 * 2 ^ 52) by reflexivity. nia. }
  destruct (0 <=? s) eqn:Hs'; [|apply Z.leb_gt in Hs'; lia].
  set (c := Math_ceil_div n d).
  pose proof (Math_ceil_div_spec n d Hd) as Hc. fold c in Hc.
  apply ceil_unique; [assumption|].
  unfold Number.nearest_quotient.
  pose proof (Z.div_mod (n * 2 ^ s) d ltac:(lia)) as Hdm.
  pose proof (Z.mod_pos_bound (n * 2 ^ s) d Hd) as Hr.
  set (q := n * 2 ^ s / d) in *. set (r := (n * 2 ^ s) mod d) in *.
  assert (Hup : q <= c * 2 ^ s) by nia.
  assert (Hlo : (c - 1) * 2 ^ s <= q) by nia.
  assert (Hlo' : q = (c - 1) * 2 ^ s -> d < 2 * r) by nia.
  assert (Hup' : q = c * 2 ^ s -> r = 0) by nia.
  destruct (2 * r <? d) eqn:H1;
    [apply Z.ltb_lt in H1 | apply Z.ltb_ge in H1].
  - split; [|assumption].
    destruct (Z.eq_dec q ((c - 1) * 2 ^ s)) as [E | E]; [|lia].
    specialize (Hlo' E). lia.
  - assert (q < c * 2 ^ s).
    { destruct (Z.eq_dec q (c * 2 ^ s)) as [E | E]; [|lia].
      specialize (Hup' E). lia. }
    destruct (d <? 2 * r) eqn:H2;
      [apply Z.ltb_lt in H2 | apply Z.ltb_ge in H2].
    + lia.
    + assert (Hq : (c - 1) * 2 ^ s < q).
      { destruct (Z.eq_dec q ((c - 1) * 2 ^ s)) as [E | E]; [|lia].
        specialize (Hlo' E). lia. }
      destruct (Z.even q); lia.
Qed.

(** Beyond that range it need not be: 11596411699200001 ms, which is
    2^27 days and 1 ms, is no double; the difference of the two dates is
    rounded to 11596411699200000 and the hook stores 134217728 days. *)
Remark days_beyond_exact_range :
  Number.round 11596411699200001 = 11596411699200000 /\
  Number.ceil_quotient 11596411699200000 MS_PER_DAY = 134217728 /\
  Math_ceil_div 11596411699200001 MS_PER_DAY = 134217729.
Proof. repeat split; vm_compute; reflexivity. Qed.

Lemma create_inv f bs bs' b :
  Booking.create f bs = Some (bs', b) ->
  bs' = bs ++ [b] /\ b = stored f bs /\
  Booking.f_startDate f < Booking.f_endDate f /\
  0 <= Booking.f_totalAmount f.
Proof.
  unfold Booking.create, Booking.pre_validate, Booking.validators, stored.
  cbn [Booking.startDate Booking.endDate Booking.construct].
  destruct (Booking.f_startDate f >=? Booking.f_endDate f) eqn:Hge;
    [discriminate|].
  cbn [Booking.totalAmount Booking.pickupLocation Booking.returnLocation
       Booking.set_totalDays Booking.construct].
  destruct (0 <=? Booking.f_totalAmount f) eqn:Hamt; [|discriminate].
  destruct (Booking.required (Booking.f_pickupLocation f)); [|discriminate].
  destruct (Booking.required (Booking.f_returnLocation f)); [|discriminate].
  intros H. inversion H; subst. clear H.
  apply Z.leb_le in Hamt. rewrite Z.geb_leb in Hge. apply Z.leb_gt in Hge.
  repeat split; assumption.
Qed.

Lemma create_ok f bs :
  Booking.f_startDate f < Booking.f_endDate f ->
  0 <= Booking.f_totalAmount f ->
  Booking.required (Booking.f_pickupLocation f) = true ->
  Booking.required (Booking.f_returnLocation f) = true ->
  Booking.create f bs = Some (bs ++ [stored f bs], stored f bs).
Proof.
  intros Hr Ha Hpick Hret.
  unfold Booking.create, Booking.pre_validate, Booking.validators, stored.
  cbn [Booking.startDate Booking.endDate Booking.construct].
  assert (Hge : (Booking.f_startDate f >=? Booking.f_endDate f) = false)
    by (rewrite Z.geb_leb; apply Z.leb_gt; lia).
  rewrite Hge.
  cbn [Booking.totalAmount Booking.pickupLocation Booking.returnLocation
       Booking.set_totalDays Booking.construct].
  apply Z.leb_le in Ha. now rewrite Ha, Hpick, Hret.
Qed.

Lemma create_inv_locations f bs bs' b :
  Booking.create f bs = Some (bs', b) ->
  Booking.required (Booking.f_pickupLocation f) = true /\
  Booking.required (Booking.f_returnLocation f) = true.
Proof.
  unfold Booking.create, Booking.pre_validate, Booking.validators.
  cbn [Booking.startDate Booking.endDate Booking.construct].
  destruct (Booking.f_startDate f >=? Booking.f_endDate f); [discriminate|].
  cbn [Booking.totalAmount Booking.pickupLocation Booking.returnLocation
       Booking.set_totalDays Booking.construct].
  destruct (0 <=? Booking.f_totalAmount f); [|discriminate].
  destruct (Booking.required (Booking.f_pickupLocation f)); [|discriminate].
  destruct (Booking.required (Booking.f_returnLocation f)); [|discriminate].
  auto.
Qed.

(** What the handlers pass as a location meets [required]. *)
Lemma text_required s : Booking.required (text s) = true.
Proof. reflexivity. Qed.

Lemma created_by_persist th f reply st st' r b :
  persist th f reply st = (st', r) ->
  (forall x, created (reply x) = Some x) ->
  created r = Some b ->
  st' = with_bookings (bookings st ++ [b]) st /\ b = stored f (bookings st) /\
  Booking.f_startDate f < Booking.f_endDate f /\
  0 <= Booking.f_totalAmount f /\
  th BookingCreate = false /\ th BookingPopulate = false /\ r = reply b.
Proof.
  intros Hp Hreply Hb.
  destruct (persist_cases th f reply st)
    as [H | (bs & x & Hc & [[_ H] | (Hc1 & Hc2 & H)])];
    rewrite H in Hp; inversion Hp; subst; clear Hp; try discriminate.
  rewrite Hreply in Hb. inversion Hb; subst.
  apply create_inv in Hc. destruct Hc as (-> & Hx & Hr & Ha).
  repeat split; assumption.
Qed.

Lemma no_conflict_nil {A} (l : list A) :
  (0 <? List.length l)%nat = false -> l = [].
Proof. destruct l; [reflexivity | discriminate]. Qed.

(* Walk down the tests of a handler run [Hrun], dropping every branch whose
   reply is not a created reservation ([Hb]). *)
Ltac prune Hrun Hb :=
  repeat (cbn beta iota zeta in Hrun;
          match type of Hrun with
          | (if ?c then _ else _) = _ => destruct c eqn:?
          | match ?x with _ => _ end = _ => destruct x eqn:?
          end;
          try (inversion Hrun; subst; simpl in Hb; discriminate)).

(** Everything a granted request tells about the store it met and the
    reservation it left. *)
Lemma created_inv th now p req st st' r b :
  createReservation th now p req st = (st', r) ->
  created r = Some b ->
  now < req_startDate req /\ req_startDate req < req_endDate req /\
  exists car,
    Car.findById (req_car req) (cars st) = Some car /\
    Car.isAvailable car = true /\
    cars st' = cars st /\ bookings st' = bookings st ++ [b] /\
    Booking.id b = fresh (map Booking.id (bookings st)) /\
    Booking.car b = req_car req /\
    Booking.startDate b = req_startDate req /\
    Booking.endDate b = req_endDate req /\
    Booking.status b = pending /\
    Booking.totalDays b =
      Math_ceil_div (req_endDate req - req_startDate req) MS_PER_DAY /\
    Booking.totalAmount b
    = Number.mul_int (Booking.totalDays b) (Car.pricePerDay car) /\
    0 <= Booking.totalAmount b /\
    match p with
    | Authenticated userId =>
        Booking.find
          (Booking.conflict_query (req_car req) [confirmed; active]
             (req_startDate req) (req_endDate req)) (bookings st) = [] /\
        users st' = users st /\ Booking.user b = userId /\
        Booking.isGuestBooking b = false /\ r = BookingCreated b
    | Guest g =>
        Booking.find
          (Booking.conflict_query (req_car req) [confirmed; active; pending]
             (req_startDate req) (req_endDate req)) (bookings st) = [] /\
        Booking.isGuestBooking b = true /\ r = GuestBookingCreated b
    end.
Proof.
  intros Hrun Hb. destruct p as [userId | g]; simpl in Hrun.
  - rewrite createBooking_eq in Hrun. prune Hrun Hb.
    apply created_by_persist with (b := b) in Hrun; [|reflexivity|assumption].
    destruct Hrun as (-> & -> & Hr & Ha & _ & _ & ->).
    cbn in Hr, Ha.
    repeat match goal with
           | H : (_ <=? _) = false |- _ => apply Z.leb_gt in H
           | H : negb _ = false |- _ => apply negb_false_iff in H
           | H : (0 <? _)%nat = false |- _ => apply no_conflict_nil in H
           end.
    split; [lia | split; [lia|]].
    eexists; split; [reflexivity|]. cbn. repeat split; auto.
  - rewrite createGuestBooking_eq in Hrun. unfold User.create in Hrun.
    prune Hrun Hb;
      (apply created_by_persist with (b := b) in Hrun;
       [|reflexivity|assumption];
       destruct Hrun as (-> & -> & Hr & Ha & _ & _ & ->);
       cbn in Hr, Ha;
       repeat match goal with
              | H : (_ <=? _) = false |- _ => apply Z.leb_gt in H
              | H : negb _ = false |- _ => apply negb_false_iff in H
              | H : (0 <? _)%nat = false |- _ => apply no_conflict_nil in H
              end;
       split; [lia | split; [lia|]];
       eexists; split; [reflexivity|]; cbn; repeat split; auto).
Qed.

(** C4.  A granted request stores a reservation whose [totalDays] is the
    ceiling of the requested span in days of 86 400 000 ms, at least 1 (and
    what [Math.ceil] of the double quotient gives, for a span below 2^53
    ms), and whose [totalAmount] is the product of [totalDays] and the daily price
    of the car as JavaScript numbers multiply: the double nearest to the
    exact product.  It is the exact product whenever that is a double, as
    it is for a whole price while the product stays below 2^53; from
    2099-01-10 to 2099-01-13 (midnight UTC, 4071686400000 and
    4071945600000 ms) at 50 a day that is 3 days and 150. *)
Theorem C4_duration_and_price th now p req st b :
  created (snd (createReservation th now p req st)) = Some b ->
  let span := req_endDate req - req_startDate req in
  req_startDate req < req_endDate req /\
  In b (bookings (fst (createReservation th now p req st))) /\
  Booking.totalDays b = Math_ceil_div span 86400000 /\
  (Booking.totalDays b - 1) * 86400000 < span
    <= Booking.totalDays b * 86400000 /\
  1 <= Booking.totalDays b /\
  (span < 2 ^ 53 ->
   Booking.totalDays b = Number.ceil_quotient span 86400000) /\
  (exists car,
      Car.findById (req_car req) (cars st) = Some car /\
      Booking.totalAmount b
      = Number.round (Booking.totalDays b * Car.pricePerDay car) /\
      (Number.representable (Booking.totalDays b * Car.pricePerDay car) ->
       Booking.totalAmount b = Booking.totalDays b * Car.pricePerDay car) /\
      (forall price,
          Car.pricePerDay car = Number.of_Z price ->
          Z.abs (Booking.totalDays b * price) < 2 ^ 53 ->
          Booking.totalAmount b
          = Number.of_Z (Booking.totalDays b * price)) /\
      (req_startDate req = 4071686400000 ->
       req_endDate req = 4071945600000 ->
       Car.pricePerDay car = Number.of_Z 50 ->
       Booking.totalDays b = 3 /\ Booking.totalAmount b = Number.of_Z 150)) /\
  Date_of_ymd 2099 1 10 = 4071686400000 /\
  Date_of_ymd 2099 1 13 = 4071945600000.
Proof.
  intros Hb span.
  destruct (createReservation th now p req st) as [st' r] eqn:Hrun.
  simpl in Hb |- *.
  destruct (created_inv _ _ _ _ _ _ _ _ Hrun Hb)
    as (Hnow & Hrange & car & Hcar & _ & _ & Hbs & _ & _ & _ & _ & _ &
        Hdays & Hamt & _).
  change MS_PER_DAY with 86400000 in Hdays.
  pose proof (Math_ceil_div_spec span 86400000 ltac:(lia)) as Hceil.
  fold span in Hdays. rewrite <- Hdays in Hceil.
  split; [assumption|].
  split; [rewrite Hbs; apply in_or_app; right; now left|].
  split; [assumption|].
  split; [assumption|].
  split; [|split; [|split]].
  - rewrite Hdays. apply Math_ceil_div_pos; [lia|]. unfold span. lia.
  - intros Hspan. rewrite Hdays. symmetry.
    apply ceil_quotient_exact; unfold span in *; lia.
  - exists car. split; [assumption|]. split; [assumption|].
    split; [|split].
    + intros Hrep. rewrite Hamt. now apply mul_int_exact.
    + intros price Hp Hsmall. rewrite Hamt, Hp. now apply mul_int_of_Z.
    + intros Hs He Hp.
      assert (Hd : Booking.totalDays b = 3).
      { rewrite Hdays. unfold span. rewrite Hs, He. reflexivity. }
      split; [assumption|]. rewrite Hamt, Hd, Hp. vm_compute. reflexivity.
  - split; reflexivity.
Qed.

Lemma C4_duration_and_price_witness :
  Booking.totalDays (sample_booking pending) = 3 /\
  Booking.totalAmount (sample_booking pending) = Number.of_Z 150.
Proof.
  destruct (C4_duration_and_price no_faults sample_now (Authenticated 7%nat)
              sample_request sample_store (sample_booking pending)
              ltac:(vm_compute; reflexivity))
    as (_ & _ & _ & _ & _ & _ & (car & Hcar & _ & _ & _ & Hex) & _).
  apply Hex; [reflexivity | reflexivity |].
  vm_compute in Hcar. inversion Hcar. reflexivity.
Defined.

(** C4 with the exact product in place of the rounded one fails: three days
    at 9007199254740991 a day are stored as 27021597764222972, one less
    than the product. *)
Lemma C4_counterexample :
  exists b car,
    created (snd (createReservation no_faults sample_now
                    (Authenticated 7%nat) sample_request
                    sample_store_costly)) = Some b /\
    Car.findById (req_car sample_request) (cars sample_store_costly)
    = Some car /\
    Booking.totalDays b = 3 /\
    Car.pricePerDay car = Number.of_Z 9007199254740991 /\
    Booking.totalAmount b = Number.of_Z 27021597764222972 /\
    Booking.totalDays b * Car.pricePerDay car
    = Number.of_Z 27021597764222973 /\
    Booking.totalAmount b <> Booking.totalDays b * Car.pricePerDay car.
Proof.
  eexists. eexists.
  split; [vm_compute; reflexivity|].
  split; [vm_compute; reflexivity|].
  split; [reflexivity|].
  split; [reflexivity|].
  split; [vm_compute; reflexivity|].
  split; [vm_compute; reflexivity|].
  vm_compute. discriminate.
Qed.

(** The same with a price that is not whole: three days at the double
    nearest to 0.1, 3602879701896397 * 2^-55, are stored as
    5404319552844596 * 2^-54, the double written 0.30000000000000004.  A
    product half way between two doubles goes to the even one: three days
    at 3002399751580331, that is 2^53 + 1, are stored as 2^53; beyond the
    largest double the amount is [Infinity]. *)
Remark rounded_amounts :
  (Number.mul_int 3 (Number.of_double 3602879701896397 (-55))
   = Number.of_double 5404319552844596 (-54) /\
   3 * Number.of_double 3602879701896397 (-55)
   <> Number.of_double 5404319552844596 (-54)) /\
  Number.mul_int 3 (Number.of_Z 3002399751580331)
  = Number.of_Z 9007199254740992 /\
  Number.mul_int 3 (Number.of_double 9007199254740991 971) = Number.infinity.
Proof.
  split; [split; [vm_compute; reflexivity | vm_compute; discriminate]|].
  split; vm_compute; reflexivity.
Qed.

(* ------------------------------------------------------------------ *)
(** ** Date validation *)

(** A reply that is one of the four business errors leaves the whole store
    as it was. *)
Lemma business_error_leaves_store th now p req st k :
  error_kind (snd (createReservation th now p req st)) = Some k ->
  k <> InfrastructureError ->
  fst (createReservation th now p req st) = st.
Proof.
  assert (Hpersist : forall f r s,
    (forall x, error_kind (r x) = None) ->
    error_kind (snd (persist th f r s)) = Some k ->
    k <> InfrastructureError -> fst (persist th f r s) = st).
  { intros f r s Hr H Hk.
    destruct (persist_cases th f r s)
      as [E | (bs & x & _ & [[_ E] | (_ & _ & E)])];
      rewrite E in H; simpl in H; try congruence;
      rewrite Hr in H; discriminate. }
  destruct p as [userId | g]; simpl.
  - rewrite createBooking_eq.
    repeat match goal with
           | |- context [if ?c then (_, _) else _] =>
               destruct c; try (simpl; congruence);
               try (apply Hpersist; reflexivity)
           | |- context [match Car.findById ?a ?b with _ => _ end] =>
               destruct (Car.findById a b); try (simpl; congruence);
               try (apply Hpersist; reflexivity)
           end.
  - rewrite createGuestBooking_eq. unfold User.create.
    repeat match goal with
           | |- context [if ?c then (_, _) else _] =>
               destruct c; try (simpl; congruence);
               try (apply Hpersist; reflexivity)
           | |- context [match Car.findById ?a ?b with _ => _ end] =>
               destruct (Car.findById a b); try (simpl; congruence);
               try (apply Hpersist; reflexivity)
           | |- context [match User.findOne ?a ?b with _ => _ end] =>
               destruct (User.findOne a b); cbv zeta;
               try (simpl; congruence);
               try (apply Hpersist; reflexivity)
           end.
Qed.

(** Which requests the date checks turn down. *)
Lemma date_check_iff th now p req st :
  error_kind (snd (createReservation th now p req st))
    = Some InvalidDateRange <->
  req_startDate req >= req_endDate req \/ req_startDate req <= now.
Proof.
  assert (Hpersist : forall f k s,
             (forall x, error_kind (k x) = None) ->
             error_kind (snd (persist th f k s)) <> Some InvalidDateRange).
  { intros f k s Hk H.
    destruct (persist_cases th f k s)
      as [E | (bs & x & _ & [[_ E] | (_ & _ & E)])];
      rewrite E in H; simpl in H; try discriminate.
    rewrite Hk in H. discriminate. }
  destruct p as [userId | g]; simpl.
  - rewrite createBooking_eq.
    destruct (req_startDate req <=? now) eqn:H1;
      [apply Z.leb_le in H1; simpl; split; auto |].
    destruct (req_endDate req <=? req_startDate req) eqn:H2;
      [apply Z.leb_le in H2; simpl; split; auto; lia |].
    apply Z.leb_gt in H1, H2.
    split; [|intros; lia].
    intros H. exfalso. revert H.
    destruct (th CarFindById); [discriminate|].
    destruct (Car.findById _ _); [|discriminate].
    destruct (negb _); [discriminate|].
    destruct (th BookingFind); [discriminate|].
    destruct (0 <? _)%nat; [discriminate|].
    apply Hpersist. reflexivity.
  - rewrite createGuestBooking_eq.
    destruct (req_startDate req <=? now) eqn:H1;
      [apply Z.leb_le in H1; simpl; split; auto |].
    destruct (req_endDate req <=? req_startDate req) eqn:H2;
      [apply Z.leb_le in H2; simpl; split; auto; lia |].
    apply Z.leb_gt in H1, H2.
    split; [|intros; lia].
    intros H. exfalso. revert H.
    destruct (th CarFindById); [discriminate|].
    destruct (Car.findById _ _); [|discriminate].
    destruct (negb _); [discriminate|].
    destruct (th BookingFind); [discriminate|].
    destruct (0 <? _)%nat; [discriminate|].
    destruct (th UserFindOne); [discriminate|].
    destruct (User.findOne _ _).
    + cbv zeta. destruct (th UserSave); [discriminate|].
      apply Hpersist. reflexivity.
    + destruct (th UserCreate); [discriminate|].
      destruct (User.create _ _ _ _). apply Hpersist. reflexivity.
Qed.

(** C5.  On either pathway the reply is an invalid-date-range error exactly
    when the start is not after the request time or not before the end; the
    store is then left as it was and no reservation is created.  Any other
    request passes date validation. *)
Theorem C5_date_validation th now p req st :
  (error_kind (snd (createReservation th now p req st))
     = Some InvalidDateRange <->
   req_startDate req >= req_endDate req \/ req_startDate req <= now) /\
  (req_startDate req >= req_endDate req \/ req_startDate req <= now ->
   fst (createReservation th now p req st) = st /\
   created (snd (createReservation th now p req st)) = None).
Proof.
  split; [apply date_check_iff|].
  intros Hbad. apply date_check_iff with (th := th) (p := p) (st := st) in Hbad.
  split.
  - apply (business_error_leaves_store _ _ _ _ _ _ Hbad). discriminate.
  - destruct (snd (createReservation th now p req st));
      simpl in Hbad |- *; congruence.
Qed.

Lemma C5_date_validation_witness :
  error_kind
    (snd (createReservation no_faults (Date_of_ymd 2099 1 10)
            (Guest sample_guest) sample_request sample_store))
  = Some InvalidDateRange.
Proof.
  apply (proj1 (C5_date_validation no_faults (Date_of_ymd 2099 1 10)
                  (Guest sample_guest) sample_request sample_store)).
  right. vm_compute. discriminate.
Defined.

(* ------------------------------------------------------------------ *)
(** ** Two requests for the same car and dates *)

Lemma find_nil (q : Booking.t -> bool) bs :
  Booking.find q bs = [] <-> forall b, In b bs -> q b = false.
Proof.
  unfold Booking.find. induction bs as [|x bs IH]; simpl.
  - split; [intros _ b [] | reflexivity].
  - destruct (q x) eqn:Hx.
    + split; [discriminate|]. intros H. specialize (H x (or_introl eq_refl)).
      congruence.
    + rewrite IH. split.
      * intros H b [<- | Hin]; auto.
      * intros H b Hin. apply H. now right.
Qed.

Lemma find_app (q : Booking.t -> bool) bs bs' :
  Booking.find q (bs ++ bs') = Booking.find q bs ++ Booking.find q bs'.
Proof. unfold Booking.find. apply filter_app. Qed.

(** A reservation that does not block a guest request does not block an
    authenticated one either. *)
Lemma no_conflict_weaken carId s e bs :
  Booking.find (Booking.conflict_query carId [confirmed; active; pending] s e)
    bs = [] ->
  Booking.find (Booking.conflict_query carId [confirmed; active] s e) bs = [].
Proof.
  rewrite !find_nil. intros H b Hin. specialize (H b Hin).
  unfold Booking.conflict_query in *.
  destruct (Nat.eqb (Booking.car b) carId); [|reflexivity].
  destruct (Booking.overlaps _ _ s e); [|now rewrite andb_false_r].
  rewrite andb_true_r in *. simpl in *.
  destruct (Booking.status b); simpl in *; congruence.
Qed.

(** C3, as it holds.  When a request has been granted, the reservation it
    left is pending; a second request for the same car and dates is then
    turned down as a conflict if it comes in as a guest request, and is
    granted as a further pending reservation if it comes in as an
    authenticated one, because a pending reservation blocks guest requests
    only. *)
Theorem C3_second_request th1 th2 now1 now2 p1 p2 req req2 st b1 :
  created (snd (createReservation th1 now1 p1 req st)) = Some b1 ->
  req_car req2 = req_car req ->
  req_startDate req2 = req_startDate req ->
  req_endDate req2 = req_endDate req ->
  now2 < req_startDate req ->
  (forall c, th2 c = false) ->
  let st1 := fst (createReservation th1 now1 p1 req st) in
  Booking.status b1 = pending /\
  bookings st1 = bookings st ++ [b1] /\
  match p2 with
  | Guest _ =>
      createReservation th2 now2 p2 req2 st1 = (st1, DatesTaken)
  | Authenticated _ =>
      exists b2,
        snd (createReservation th2 now2 p2 req2 st1) = BookingCreated b2 /\
        Booking.status b2 = pending /\
        bookings (fst (createReservation th2 now2 p2 req2 st1))
        = bookings st ++ [b1; b2]
  end.
Proof.
  intros Hb Hc2 Hs2 He2 Hnow2 Hth2 st1. subst st1.
  destruct (createReservation th1 now1 p1 req st) as [st1 r1] eqn:Hrun.
  simpl in Hb |- *.
  destruct (created_inv _ _ _ _ _ _ _ _ Hrun Hb)
    as (Hnow & Hrange & car & Hcar & Havail & Hcars & Hbs & _ & Hbcar &
        Hbs1 & Hbe1 & Hst & Hdays & Hamt & Hpos & Hp1).
  assert (Hfree :
    Booking.find
      (Booking.conflict_query (req_car req) [confirmed; active]
         (req_startDate req) (req_endDate req)) (bookings st) = []).
  { destruct p1; [tauto | apply no_conflict_weaken; tauto]. }
  split; [assumption | split; [assumption|]].
  assert (Hs : (req_startDate req2 <=? now2) = false)
    by (apply Z.leb_gt; lia).
  assert (He : (req_endDate req2 <=? req_startDate req2) = false)
    by (apply Z.leb_gt; lia).
  destruct p2 as [u2 | g2]; simpl.
  - rewrite createBooking_eq, Hs, He, !Hth2, Hc2, Hs2, He2, Hcars, Hcar,
      Havail, Hbs.
    simpl negb. cbv iota.
    rewrite find_app, Hfree. simpl app.
    assert (Hq : Booking.conflict_query (req_car req) [confirmed; active]
                   (req_startDate req) (req_endDate req) b1 = false).
    { unfold Booking.conflict_query. rewrite Hst. simpl.
      now rewrite andb_false_r. }
    rewrite Hq. cbn [List.length Nat.ltb Nat.leb].
    unfold persist. rewrite !Hth2.
    rewrite create_ok.
    + simpl. eexists. split; [reflexivity|]. split; [reflexivity|].
      rewrite Hbs, <- app_assoc. reflexivity.
    + cbn. lia.
    + unfold auth_fields. cbn [Booking.f_totalAmount].
      rewrite Hs2, He2, <- Hdays, <- Hamt. assumption.
    + apply text_required.
    + apply text_required.
  - rewrite createGuestBooking_eq, Hs, He, !Hth2, Hc2, Hs2, He2, Hcars, Hcar,
      Havail.
    simpl negb. cbv iota.
    assert (Hq :
      (0 <? List.length
              (Booking.find
                 (Booking.conflict_query (req_car req)
                    [confirmed; active; pending]
                    (req_startDate req) (req_endDate req))
                 (bookings st1)))%nat = true).
    { apply some_conflict_iff. exists b1. split.
      - rewrite Hbs. apply in_or_app. right. now left.
      - apply conflict_query_spec. rewrite Hst, Hbs1, Hbe1.
        repeat split; [assumption | simpl; tauto | lia | lia]. }
    now rewrite Hq.
Qed.

Lemma C3_second_request_witness :
  createReservation no_faults sample_now (Guest sample_guest) sample_request
    (fst (createReservation no_faults sample_now (Guest sample_guest)
            sample_request sample_store))
  = (fst (createReservation no_faults sample_now (Guest sample_guest)
            sample_request sample_store), DatesTaken).
Proof.
  refine (proj2 (proj2
    (C3_second_request no_faults no_faults sample_now sample_now
       (Guest sample_guest) (Guest sample_guest) sample_request
       sample_request sample_store
       (stored
          (guest_fields
             (snd (User.create "Ann" "ann@example.org" "555-0100" []))
             sample_request sample_car sample_guest) [])
       _ _ _ _ _ _))).
  - vm_compute. reflexivity.
  - reflexivity.
  - reflexivity.
  - reflexivity.
  - vm_compute. reflexivity.
  - intros c. reflexivity.
Defined.

(** C3, as stated, fails on the authenticated pathway: on a store with one
    available car and no reservation, the same request served twice is
    granted twice. *)
Lemma C3_counterexample :
  ~ second_is_conflict (Authenticated 7%nat) sample_now sample_now
      sample_request sample_store.
Proof.
  unfold second_is_conflict. vm_compute. intros [_ H]. discriminate H.
Qed.

(* ------------------------------------------------------------------ *)
(** ** Availability check *)

(** C6.  For an existing car (and a store that answers) the availability
    check leaves the store as it was and replies with
    [available = (no conflict) && car.isAvailable], the conflicts being, in
    store order, the ranges of the car's reservations in status confirmed
    or active that meet the requested range. *)
Theorem C6_availability th carId startDate endDate st car :
  th CarFindById = false -> th BookingFind = false ->
  Car.findById carId (cars st) = Some car ->
  exists available conflicts,
    checkAvailability th carId startDate endDate st
    = (st, Availability available conflicts) /\
    conflicts
    = map (fun b => (Booking.startDate b, Booking.endDate b))
        (filter
           (fun b =>
              Nat.eqb (Booking.car b) carId
              && (Status_eqb (Booking.status b) confirmed
                  || Status_eqb (Booking.status b) active)
              && ((Booking.startDate b <=? endDate)
                  && (Booking.endDate b >=? startDate)))
           (bookings st)) /\
    (available = true <-> conflicts = [] /\ Car.isAvailable car = true) /\
    (forall range,
        In range conflicts <->
        exists b,
          In b (bookings st) /\ Booking.car b = carId /\
          (Booking.status b = confirmed \/ Booking.status b = active) /\
          Booking.startDate b <= endDate /\ Booking.endDate b >= startDate /\
          range = (Booking.startDate b, Booking.endDate b)).
Proof.
  intros Hcar Hfind Hfound.
  rewrite checkAvailability_eq, Hcar, Hfound, Hfind. cbv zeta.
  eexists _, _. split; [reflexivity|].
  split; [|split].
  - unfold Booking.find. f_equal. apply filter_ext. intros b.
    unfold Booking.conflict_query, Booking.overlaps. simpl.
    now rewrite orb_false_r.
  - rewrite andb_true_iff, Nat.eqb_eq.
    split; intros [Hlen Hav]; (split; [|assumption]).
    + apply length_zero_iff_nil in Hlen. now rewrite Hlen.
    + apply map_eq_nil in Hlen. now rewrite Hlen.
  - intros range. rewrite in_map_iff. split.
    + intros [b [<- Hin]]. apply find_spec in Hin. destruct Hin as [Hin Hq].
      apply conflict_query_spec in Hq.
      destruct Hq as (Hc & Hst & Hlo & Hhi).
      exists b. simpl in Hst. intuition.
    + intros [b (Hin & Hc & Hst & Hlo & Hhi & ->)].
      exists b. split; [reflexivity|].
      apply find_spec. split; [assumption|].
      apply conflict_query_spec. simpl. intuition.
Qed.

Lemma C6_availability_witness :
  checkAvailability no_faults 1%nat (Date_of_ymd 2099 1 13)
    (Date_of_ymd 2099 1 20) (sample_store_with confirmed)
  = (sample_store_with confirmed,
     Availability false [(Date_of_ymd 2099 1 10, Date_of_ymd 2099 1 13)]).
Proof.
  destruct (C6_availability no_faults 1%nat (Date_of_ymd 2099 1 13)
              (Date_of_ymd 2099 1 20) (sample_store_with confirmed)
              sample_car eq_refl eq_refl eq_refl)
    as (available & conflicts & Hrun & _).
  rewrite Hrun. vm_compute in Hrun. inversion Hrun. reflexivity.
Defined.

(* ------------------------------------------------------------------ *)
(** ** Status changes *)

Lemma findById_update_same i s bs b :
  Booking.findById i bs = Some b ->
  Booking.findById i (Booking.update_status i s bs)
  = Some (Booking.set_status s b).
Proof.
  unfold Booking.findById. induction bs as [|x bs IH]; simpl; [discriminate|].
  destruct (Nat.eqb (Booking.id x) i) eqn:Hx; simpl.
  - intros H. inversion H; subst.
    cbn [Booking.id Booking.set_status]. now rewrite Hx.
  - rewrite Hx. assumption.
Qed.

Lemma findById_update_other i j s bs :
  j <> i ->
  Booking.findById j (Booking.update_status i s bs) = Booking.findById j bs.
Proof.
  intros Hne. unfold Booking.findById.
  induction bs as [|x bs IH]; simpl; [reflexivity|].
  destruct (Nat.eqb (Booking.id x) i) eqn:Hx; simpl.
  - apply Nat.eqb_eq in Hx.
    cbn [Booking.id Booking.set_status].
    destruct (Nat.eqb (Booking.id x) j) eqn:Hj; [|reflexivity].
    apply Nat.eqb_eq in Hj. congruence.
  - now rewrite IH.
Qed.

Lemma update_status_length i s bs :
  List.length (Booking.update_status i s bs) = List.length bs.
Proof.
  induction bs as [|x bs IH]; simpl; [reflexivity|].
  destruct (Nat.eqb (Booking.id x) i); simpl; congruence.
Qed.

Lemma findById_none i bs :
  Booking.findById i bs = None <-> forall b, In b bs -> Booking.id b <> i.
Proof.
  unfold Booking.findById. split.
  - intros H b Hin Hid.
    apply (find_none _ _ H) in Hin. apply Nat.eqb_neq in Hin. contradiction.
  - intros H. induction bs as [|x bs IH]; simpl; [reflexivity|].
    destruct (Nat.eqb (Booking.id x) i) eqn:Hx.
    + apply Nat.eqb_eq in Hx. exfalso. apply (H x); [now left | assumption].
    + apply IH. intros b Hin. apply H. now right.
Qed.

(** C8.  With the store answering, a status change for an id that no
    reservation carries is answered "not found" and changes nothing; for an
    id that a reservation carries it is answered with that reservation in
    the requested status, whatever status it had, and afterwards the store
    holds the reservation in exactly that status, every other reservation
    being as before. *)
Theorem C8_set_status th bookingId newStatus st :
  th BookingFindByIdAndUpdate = false -> th BookingPopulate = false ->
  ((forall b, In b (bookings st) -> Booking.id b <> bookingId) ->
   updateBookingStatus th bookingId newStatus st = (st, BookingNotFound) /\
   error_kind BookingNotFound = Some NotFound) /\
  (forall b,
      Booking.findById bookingId (bookings st) = Some b ->
      let st' := fst (updateBookingStatus th bookingId newStatus st) in
      let b' := Booking.set_status newStatus b in
      snd (updateBookingStatus th bookingId newStatus st) = StatusUpdated b' /\
      Booking.status b' = newStatus /\
      Booking.id b' = bookingId /\
      Booking.findById bookingId (bookings st') = Some b' /\
      (forall j, j <> bookingId ->
                 Booking.findById j (bookings st')
                 = Booking.findById j (bookings st)) /\
      List.length (bookings st') = List.length (bookings st) /\
      cars st' = cars st /\ users st' = users st).
Proof.
  intros Hupd Hpop. rewrite updateBookingStatus_eq, Hupd. split.
  - intros Hnone. apply findById_none in Hnone. rewrite Hnone.
    rewrite with_bookings_same. split; reflexivity.
  - intros b Hb. rewrite Hb, Hpop. cbv zeta. simpl fst. simpl snd.
    split; [reflexivity|]. split; [reflexivity|].
    split.
    { unfold Booking.findById in Hb. apply find_some in Hb.
      destruct Hb as [_ Hb]. apply Nat.eqb_eq in Hb. exact Hb. }
    split; [now apply findById_update_same|].
    split; [intros j Hj; now apply findById_update_other|].
    split; [apply update_status_length|]. split; reflexivity.
Qed.

Lemma C8_set_status_witness :
  updateBookingStatus no_faults 1%nat pending (sample_store_with completed)
  = (sample_store_with pending, StatusUpdated (sample_booking pending)) /\
  updateBookingStatus no_faults 2%nat active (sample_store_with completed)
  = (sample_store_with completed, BookingNotFound).
Proof.
  destruct (C8_set_status no_faults 1%nat pending
              (sample_store_with completed) eq_refl eq_refl) as [_ Hsome].
  destruct (C8_set_status no_faults 2%nat active
              (sample_store_with completed) eq_refl eq_refl) as [Hnone _].
  split.
  - specialize (Hsome (sample_booking completed) eq_refl).
    destruct Hsome as (Hreply & _).
    rewrite (surjective_pairing (updateBookingStatus _ _ _ _)), Hreply.
    reflexivity.
  - apply Hnone. intros b [<- | []]. vm_compute. discriminate.
Defined.

(* ------------------------------------------------------------------ *)
(** ** What a failed request leaves behind *)





(** Beside C9: the handlers send their reply only after the [populate] read
    that follows the insert.  When that read rejects, the reply is the 500
    one although the reservation has been stored, complete, by then. *)
Remark populate_failure_after_insert :
  createReservation populate_fails sample_now (Authenticated 7%nat)
    sample_request sample_store
  = ({| cars := [sample_car]; bookings := [sample_booking pending];
        users := [] |},
     ServerError BookingPopulate).
Proof. vm_compute. reflexivity. Qed.

(* ------------------------------------------------------------------ *)
(** ** Order of the checks *)

(** C10.  The checks come in a fixed order.  Invalid dates are reported
    whatever the car collection holds and whatever the store does; with
    valid dates a missing car is reported whatever the reservations are; an
    existing car flagged unavailable is reported without the conflict query
    being consulted (its result and even its failure are immaterial); and
    only for an available car does a blocking reservation that meets the
    range yield the conflict reply. *)
Theorem C10_check_order th now p req st :
  let r := snd (createReservation th now p req st) in
  let dates_ok := now < req_startDate req /\ req_startDate req < req_endDate req in
  (~ dates_ok -> error_kind r = Some InvalidDateRange) /\
  (dates_ok -> th CarFindById = false ->
   Car.findById (req_car req) (cars st) = None ->
   r = CarNotFound /\ error_kind r = Some NotFound) /\
  (dates_ok -> th CarFindById = false ->
   forall car,
     Car.findById (req_car req) (cars st) = Some car ->
     Car.isAvailable car = false ->
     r = CarNotAvailable /\ error_kind r = Some Unavailable) /\
  (dates_ok -> th CarFindById = false -> th BookingFind = false ->
   forall car,
     Car.findById (req_car req) (cars st) = Some car ->
     Car.isAvailable car = true ->
     (exists b, meets req st b /\ blocks p (Booking.status b)) ->
     r = DatesTaken /\ error_kind r = Some Conflict).
Proof.
  cbv zeta. split; [|split; [|split]].
  - intros Hbad. apply date_check_iff. lia.
  - intros [Hnow Hrange] Hcar Hnone.
    apply Z.leb_gt in Hnow, Hrange.
    destruct p; simpl;
      [rewrite createBooking_eq | rewrite createGuestBooking_eq];
      rewrite Hnow, Hrange, Hcar, Hnone; split; reflexivity.
  - intros [Hnow Hrange] Hcar car Hfound Hoff.
    apply Z.leb_gt in Hnow, Hrange.
    destruct p; simpl;
      [rewrite createBooking_eq | rewrite createGuestBooking_eq];
      rewrite Hnow, Hrange, Hcar, Hfound, Hoff; split; reflexivity.
  - intros [Hnow Hrange] Hcar Hfind car Hfound Hon Hblock.
    apply (conflict_reply_iff th now p req st car) in Hblock; try assumption.
    rewrite Hblock. split; reflexivity.
Qed.

Lemma C10_check_order_witness :
  error_kind
    (snd (createReservation no_faults (Date_of_ymd 2099 1 10)
            (Authenticated 7%nat) sample_request empty_store))
  = Some InvalidDateRange /\
  snd (createReservation find_fails sample_now (Guest sample_guest)
         sample_request sample_store_unavailable) = CarNotAvailable.
Proof.
  split.
  - apply (proj1 (C10_check_order no_faults (Date_of_ymd 2099 1 10)
                    (Authenticated 7%nat) sample_request empty_store)).
    intros [H _]. vm_compute in H. discriminate H.
  - apply (proj1 (proj2 (proj2
             (C10_check_order find_fails sample_now (Guest sample_guest)
                sample_request sample_store_unavailable)))
             ltac:(split; vm_compute; reflexivity) eq_refl
             {| Car.id := 1%nat; Car.pricePerDay := Number.of_Z 50;
                Car.isAvailable := false |} eq_refl eq_refl).
Defined.

(* ------------------------------------------------------------------ *)
(** ** Guest identities *)

Lemma fresh_not_in (ids : list Id) : ~ In (fresh ids) ids.
Proof.
  intros Hin. unfold fresh in Hin.
  assert (H : Forall (fun k => (k <= list_max ids)%nat) ids)
    by (apply list_max_le; apply Nat.le_refl).
  rewrite Forall_forall in H. specialize (H _ Hin). lia.
Qed.

Lemma save_ids u us : map User.id (User.save u us) = map User.id us.
Proof.
  induction us as [|v us IH]; simpl; [reflexivity|].
  destruct (Nat.eqb (User.id v) (User.id u)) eqn:Hv; simpl.
  - apply Nat.eqb_eq in Hv. now rewrite Hv.
  - now rewrite IH.
Qed.

Lemma is_guest_with_set_contact e n p u :
  User.is_guest_with e (User.set_contact n p u) = User.is_guest_with e u.
Proof. reflexivity. Qed.

(** Under unique ids, [save] rewrites the very document that was read. *)
Lemma save_guest_count n p u us e :
  unique_user_ids us -> In u us ->
  List.length (guest_identities e (User.save (User.set_contact n p u) us))
  = List.length (guest_identities e us).
Proof.
  unfold unique_user_ids, guest_identities.
  induction us as [|v us IH]; simpl; [reflexivity|].
  intros Hnd Hin. inversion Hnd as [|x l Hnotin Hnd']; subst.
  cbn [User.id User.set_contact].
  destruct (Nat.eqb (User.id v) (User.id u)) eqn:Hv.
  - apply Nat.eqb_eq in Hv.
    assert (v = u).
    { destruct Hin as [H | H]; [assumption|].
      exfalso. apply Hnotin. rewrite Hv. now apply in_map. }
    subst v. simpl. rewrite is_guest_with_set_contact.
    destruct (User.is_guest_with e u); reflexivity.
  - apply Nat.eqb_neq in Hv.
    destruct Hin as [H | H]; [congruence|].
    simpl. destruct (User.is_guest_with e v); simpl; rewrite IH; auto.
Qed.

Lemma findOne_save n p u us e :
  unique_user_ids us -> User.findOne e us = Some u ->
  User.findOne e (User.save (User.set_contact n p u) us)
  = Some (User.set_contact n p u).
Proof.
  unfold unique_user_ids, User.findOne.
  induction us as [|v us IH]; simpl; [discriminate|].
  intros Hnd Hfind. inversion Hnd as [|x l Hnotin Hnd']; subst.
  cbn [User.id User.set_contact].
  destruct (User.is_guest_with e v) eqn:Hg.
  - inversion Hfind; subst v. rewrite Nat.eqb_refl. simpl.
    rewrite is_guest_with_set_contact, Hg. reflexivity.
  - destruct (Nat.eqb (User.id v) (User.id u)) eqn:Hv.
    + apply Nat.eqb_eq in Hv. exfalso. apply Hnotin. rewrite Hv.
      apply in_map. apply (find_some _ _ Hfind).
    + simpl. rewrite Hg. now apply IH.
Qed.

Lemma findOne_some e us u :
  User.findOne e us = Some u ->
  In u us /\ User.email u = e /\ User.isGuest u = true.
Proof.
  unfold User.findOne. intros H. apply find_some in H.
  destruct H as [Hin Hq]. unfold User.is_guest_with in Hq.
  apply andb_true_iff in Hq. destruct Hq as [He Hg].
  apply String.eqb_eq in He. apply Bool.eqb_prop in Hg. auto.
Qed.

Lemma findOne_none e us :
  User.findOne e us = None -> guest_identities e us = [].
Proof.
  unfold User.findOne, guest_identities. intros H.
  induction us as [|v us IH]; simpl in *; [reflexivity|].
  destruct (User.is_guest_with e v); [discriminate | auto].
Qed.

Lemma guest_identities_app e us vs :
  guest_identities e (us ++ vs)
  = guest_identities e us ++ guest_identities e vs.
Proof. unfold guest_identities. apply filter_app. Qed.

Lemma users_after_persist th f k s :
  users (fst (persist th f k s)) = users s /\
  (forall b, (forall x, created (k x) = Some x) ->
             created (snd (persist th f k s)) = Some b ->
             Booking.user b = Booking.f_user f).
Proof.
  destruct (persist_cases th f k s)
    as [E | (bs & x & Hc & [[_ E] | (_ & _ & E)])]; rewrite E; simpl;
    (split; [reflexivity|]); intros b Hk Hb; try discriminate.
  rewrite Hk in Hb. inversion Hb; subst.
  apply create_inv in Hc. destruct Hc as (_ & -> & _). reflexivity.
Qed.

(** The user collection after a guest request: untouched when the request
    is turned down or fails before the upsert; otherwise the found identity
    rewritten in place, or a new identity appended when none was found. *)
Lemma users_after th now req g st :
  let st' := fst (createGuestBooking th now req g st) in
  let r := snd (createGuestBooking th now req g st) in
  (users st' = users st /\ created r = None) \/
  match User.findOne (guest_email g) (users st) with
  | None =>
      users st'
      = users st ++
        [{| User.id := fresh (map User.id (users st));
            User.name := guest_name g; User.email := guest_email g;
            User.phone := guest_phone g; User.role := User.role_guest;
            User.isGuest := true |}] /\
      (forall b, created r = Some b ->
                 Booking.user b = fresh (map User.id (users st)))
  | Some u =>
      users st'
      = User.save (User.set_contact (guest_name g) (guest_phone g) u)
          (users st) /\
      (forall b, created r = Some b -> Booking.user b = User.id u)
  end.
Proof.
  cbv zeta. rewrite createGuestBooking_eq. unfold User.create.
  repeat match goal with
         | |- context [if ?c then (_, _) else _] =>
             destruct c; try (left; split; reflexivity)
         | |- context [match Car.findById ?a ?b with _ => _ end] =>
             destruct (Car.findById a b); try (left; split; reflexivity)
         | |- context [match User.findOne ?a ?b with _ => _ end] =>
             destruct (User.findOne a b); cbv zeta;
             try (left; split; reflexivity)
         end.
  all: right.
  all: match goal with
       | |- context [persist ?t ?f ?k ?s] =>
           destruct (users_after_persist t f k s) as [Hu Hb]
       end.
  all: rewrite Hu; split; [reflexivity|].
  all: intros b Hcr; apply Hb in Hcr; [exact Hcr | reflexivity].
Qed.

(** One guest request keeps ids unique and never adds a second guest
    identity for an email. *)
Lemma guest_step_inv th now req g st e :
  unique_user_ids (users st) ->
  (List.length (guest_identities e (users st)) <= 1)%nat ->
  let st' := fst (createGuestBooking th now req g st) in
  let r := snd (createGuestBooking th now req g st) in
  unique_user_ids (users st') /\
  (List.length (guest_identities e (users st')) <= 1)%nat /\
  (List.length (guest_identities e (users st))
   <= List.length (guest_identities e (users st')))%nat /\
  (guest_email g = e -> created r <> None ->
   List.length (guest_identities e (users st')) = 1%nat).
Proof.
  intros Huniq Hcount. cbv zeta.
  destruct (users_after th now req g st) as [[Hu Hnone] | H];
    cbv zeta in *.
  - rewrite Hu. repeat split; auto. intros _ Hc. contradiction.
  - destruct (User.findOne (guest_email g) (users st)) as [u|] eqn:Hfind.
    + destruct H as [Hu _]. rewrite Hu.
      apply findOne_some in Hfind. destruct Hfind as (Hin & Hem & Hg).
      rewrite (save_guest_count _ _ _ _ e Huniq Hin).
      split; [unfold unique_user_ids; now rewrite save_ids|].
      split; [assumption|]. split; [apply Nat.le_refl|].
      intros He _. subst e.
      assert (Hin' : In u (guest_identities (guest_email g) (users st))).
      { unfold guest_identities. apply filter_In. split; [assumption|].
        unfold User.is_guest_with. rewrite Hem, String.eqb_refl, Hg.
        reflexivity. }
      destruct (guest_identities (guest_email g) (users st)) as [|x l];
        [destruct Hin' | simpl in *; lia].
    + destruct H as [Hu _]. rewrite Hu.
      rewrite guest_identities_app, length_app.
      split.
      { unfold unique_user_ids. rewrite map_app. simpl.
        apply NoDup_app; [exact Huniq | repeat constructor; intros [] |].
        intros a Ha [<- | []]. exact (fresh_not_in _ Ha). }
      assert (Hone : forall v,
                 guest_identities e [v]
                 = if User.is_guest_with e v then [v] else [])
        by reflexivity.
      rewrite Hone. unfold User.is_guest_with.
      cbn [User.email User.isGuest].
      destruct (String.eqb (guest_email g) e) eqn:He; simpl.
      * apply String.eqb_eq in He. subst e.
        rewrite (findOne_none _ _ Hfind). simpl. repeat split; lia.
      * apply String.eqb_neq in He.
        repeat split; try lia. intros Heq. contradiction.
Qed.

Lemma guest_run_inv calls : forall st e,
  unique_user_ids (users st) ->
  (List.length (guest_identities e (users st)) <= 1)%nat ->
  (forall c, In c calls -> guest_email (call_guest c) = e) ->
  let st' := fst (run_guest_calls calls st) in
  let replies := snd (run_guest_calls calls st) in
  unique_user_ids (users st') /\
  (List.length (guest_identities e (users st')) <= 1)%nat /\
  (List.length (guest_identities e (users st))
   <= List.length (guest_identities e (users st')))%nat /\
  ((exists r, In r replies /\ created r <> None) ->
   List.length (guest_identities e (users st')) = 1%nat).
Proof.
  induction calls as [|c calls IH]; intros st e Huniq Hcount Hmail; simpl.
  - repeat split; auto. intros [r [[] _]].
  - pose proof (guest_step_inv (call_faults c) (call_now c) (call_req c)
                  (call_guest c) st e Huniq Hcount) as Hstep.
    cbv zeta in Hstep.
    destruct (createGuestBooking (call_faults c) (call_now c) (call_req c)
                (call_guest c) st) as [st1 r1] eqn:Hrun1.
    simpl in Hstep. destruct Hstep as (Hu1 & Hc1 & Hmono1 & Hone1).
    specialize (IH st1 e Hu1 Hc1 (fun c' H => Hmail c' (or_intror H))).
    cbv zeta in IH.
    destruct (run_guest_calls calls st1) as [st2 rs] eqn:Hrun2.
    simpl in IH |- *. destruct IH as (Hu2 & Hc2 & Hmono2 & Hone2).
    repeat split; [assumption | assumption | lia |].
    intros [r [[<- | Hin] Hcr]].
    + specialize (Hone1 (Hmail c (or_introl eq_refl)) Hcr). lia.
    + apply Hone2. exists r. auto.
Qed.

Lemma findOne_app_new e us u :
  User.findOne e us = None -> User.is_guest_with e u = true ->
  User.findOne e (us ++ [u]) = Some u.
Proof.
  unfold User.findOne. intros Hnone Hu.
  induction us as [|v us IH]; simpl in *; [now rewrite Hu|].
  destruct (User.is_guest_with e v); [discriminate | auto].
Qed.

(** One guest request books under [guest_id], and leaves [guest_id] as it
    was. *)
Lemma guest_step_id th now req g st :
  unique_user_ids (users st) ->
  let st' := fst (createGuestBooking th now req g st) in
  let r := snd (createGuestBooking th now req g st) in
  guest_id (guest_email g) (users st')
  = guest_id (guest_email g) (users st) /\
  (forall b, created r = Some b ->
             Booking.user b = guest_id (guest_email g) (users st)).
Proof.
  intros Huniq. cbv zeta. unfold guest_id at 2 3.
  destruct (users_after th now req g st) as [[Hu Hnone] | H];
    cbv zeta in *.
  - unfold guest_id. rewrite Hu. split; [reflexivity|].
    intros b Hb. rewrite Hb in Hnone. discriminate.
  - destruct (User.findOne (guest_email g) (users st)) as [u|] eqn:Hfind;
      destruct H as [Hu Hb]; (split; [|exact Hb]);
      unfold guest_id; rewrite Hu.
    + now rewrite (findOne_save _ _ _ _ _ Huniq Hfind).
    + rewrite findOne_app_new; [reflexivity | assumption |].
      unfold User.is_guest_with. cbn [User.email User.isGuest].
      now rewrite String.eqb_refl.
Qed.

(** So do any number of them, for one email. *)
Lemma guest_run_id calls : forall st e,
  unique_user_ids (users st) ->
  (List.length (guest_identities e (users st)) <= 1)%nat ->
  (forall c, In c calls -> guest_email (call_guest c) = e) ->
  guest_id e (users (fst (run_guest_calls calls st)))
  = guest_id e (users st) /\
  (forall b, In (GuestBookingCreated b) (snd (run_guest_calls calls st)) ->
             Booking.user b = guest_id e (users st)).
Proof.
  induction calls as [|c calls IH]; intros st e Huniq Hcount Hmail; simpl.
  - split; [reflexivity | intros b []].
  - pose proof (guest_step_inv (call_faults c) (call_now c) (call_req c)
                  (call_guest c) st e Huniq Hcount) as Hinv.
    pose proof (guest_step_id (call_faults c) (call_now c) (call_req c)
                  (call_guest c) st Huniq) as Hid.
    rewrite (Hmail c (or_introl eq_refl)) in Hid.
    cbv zeta in Hinv, Hid.
    destruct (createGuestBooking (call_faults c) (call_now c) (call_req c)
                (call_guest c) st) as [st1 r1] eqn:Hrun1.
    simpl in Hinv, Hid.
    destruct Hinv as (Hu1 & Hc1 & _ & _). destruct Hid as [Hsame Hfirst].
    specialize (IH st1 e Hu1 Hc1 (fun c' H => Hmail c' (or_intror H))).
    destruct (run_guest_calls calls st1) as [st2 rs] eqn:Hrun2.
    simpl in IH |- *. destruct IH as [Hsame' Hrest].
    split; [congruence|].
    intros b [Hb | Hb].
    + apply Hfirst. rewrite Hb. reflexivity.
    + rewrite <- Hsame. now apply Hrest.
Qed.

(** C7.  Guest requests that share an email, served one after the other on
    a store with at most one guest identity for that email, leave at most
    one, and exactly one as soon as one of them has been granted.  A granted
    request that finds no identity for the email appends one, under an
    unused id, and books under it; one that finds an identity books under
    the id of that identity and rewrites it in place: the collection keeps
    its documents' ids, and the identity read back for the email has the
    same id, email, role and guest flag as before and the name and phone of
    the request.  All the reservations granted in a run go under one id,
    that of the identity the run ends with. *)
Theorem C7_guest_identity_upsert (e : string) :
  (forall calls st,
      unique_user_ids (users st) ->
      (List.length (guest_identities e (users st)) <= 1)%nat ->
      (forall c, In c calls -> guest_email (call_guest c) = e) ->
      let st' := fst (run_guest_calls calls st) in
      (List.length (guest_identities e (users st')) <= 1)%nat /\
      ((exists b, In (GuestBookingCreated b)
                    (snd (run_guest_calls calls st))) ->
       List.length (guest_identities e (users st')) = 1%nat) /\
      (forall b, In (GuestBookingCreated b) (snd (run_guest_calls calls st)) ->
                 Booking.user b = guest_id e (users st) /\
                 exists u, User.findOne e (users st') = Some u /\
                           User.id u = Booking.user b)) /\
  (forall th now req g st b,
      guest_email g = e ->
      unique_user_ids (users st) ->
      (List.length (guest_identities e (users st)) <= 1)%nat ->
      snd (createGuestBooking th now req g st) = GuestBookingCreated b ->
      let st' := fst (createGuestBooking th now req g st) in
      List.length (guest_identities e (users st')) = 1%nat /\
      match User.findOne e (users st) with
      | None =>
          exists u,
            users st' = users st ++ [u] /\
            ~ In (User.id u) (map User.id (users st)) /\
            User.email u = e /\ User.isGuest u = true /\
            User.name u = guest_name g /\ User.phone u = guest_phone g /\
            Booking.user b = User.id u
      | Some u =>
          Booking.user b = User.id u /\
          map User.id (users st') = map User.id (users st) /\
          User.findOne e (users st')
          = Some (User.set_contact (guest_name g) (guest_phone g) u) /\
          exists u',
            User.findOne e (users st') = Some u' /\
            In u' (users st') /\
            User.id u' = User.id u /\
            User.name u' = guest_name g /\
            User.phone u' = guest_phone g /\
            User.email u' = e /\
            User.isGuest u' = true /\
            User.role u' = User.role u
      end).
Proof.
  split.
  - intros calls st Huniq Hcount Hmail. cbv zeta.
    destruct (guest_run_inv calls st e Huniq Hcount Hmail)
      as (_ & Hle & _ & Hone).
    destruct (guest_run_id calls st e Huniq Hcount Hmail) as [Hsame Hids].
    assert (Hgranted : forall b,
              In (GuestBookingCreated b) (snd (run_guest_calls calls st)) ->
              List.length
                (guest_identities e (users (fst (run_guest_calls calls st))))
              = 1%nat).
    { intros b Hin. apply Hone. exists (GuestBookingCreated b).
      split; [assumption | discriminate]. }
    split; [assumption|].
    split; [intros [b Hin]; now apply (Hgranted b)|].
    intros b Hin. split; [now apply Hids|].
    specialize (Hgranted b Hin). unfold guest_id in Hsame.
    destruct (User.findOne e (users (fst (run_guest_calls calls st))))
      as [u|] eqn:Hfind.
    + exists u. split; [reflexivity|].
      rewrite (Hids b Hin). exact Hsame.
    + rewrite (findOne_none _ _ Hfind) in Hgranted. discriminate.
  - intros th now req g st b He Huniq Hcount Hreply. cbv zeta.
    destruct (guest_step_inv th now req g st e Huniq Hcount)
      as (_ & _ & _ & Hone).
    split; [apply Hone; [assumption | rewrite Hreply; discriminate]|].
    destruct (users_after th now req g st) as [[_ Hnone] | H];
      cbv zeta in *.
    + rewrite Hreply in Hnone. discriminate.
    + rewrite He in H.
      destruct (User.findOne e (users st)) as [u|] eqn:Hfind.
      * destruct H as [Hu Hb]. rewrite Hu.
        split; [apply Hb; rewrite Hreply; reflexivity|].
        split; [apply save_ids|].
        pose proof (findOne_save (guest_name g) (guest_phone g) u (users st)
                      e Huniq Hfind) as Hnew.
        split; [exact Hnew|].
        exists (User.set_contact (guest_name g) (guest_phone g) u).
        destruct (findOne_some _ _ _ Hfind) as (_ & Hmail & Hguest).
        split; [exact Hnew|].
        split; [exact (proj1 (findOne_some _ _ _ Hnew))|].
        cbn [User.set_contact User.id User.name User.phone User.email
             User.isGuest User.role].
        repeat split; assumption.
      * destruct H as [Hu Hb]. eexists. split; [exact Hu|].
        cbn. split; [apply fresh_not_in|].
        repeat split; try assumption.
        apply Hb. rewrite Hreply. reflexivity.
Qed.

Lemma C7_guest_identity_upsert_witness :
  List.length
    (guest_identities "ann@example.org"
       (users (fst (run_guest_calls sample_guest_calls sample_store))))
  = 1%nat /\
  exists u',
    User.findOne "ann@example.org"
      (users (fst (createGuestBooking no_faults sample_now
                     sample_request_later sample_guest_renamed
                     sample_store_after_guest)))
    = Some u' /\
    User.id u' = 1%nat /\
    User.name u' = "Ann B."%string /\ User.phone u' = "555-0199"%string.
Proof.
  split.
  - destruct (proj1 (C7_guest_identity_upsert "ann@example.org")
                sample_guest_calls sample_store
                ltac:(constructor) ltac:(simpl; lia)
                ltac:(intros c [<- | [<- | []]]; reflexivity))
      as (_ & Hone & _).
    apply Hone. eexists. vm_compute. right. left. reflexivity.
  - destruct (proj2 (C7_guest_identity_upsert "ann@example.org")
                no_faults sample_now sample_request_later
                sample_guest_renamed sample_store_after_guest
                (stored
                   (guest_fields
                      (User.set_contact "Ann B." "555-0199" sample_guest_user)
                      sample_request_later sample_car sample_guest_renamed)
                   (bookings sample_store_after_guest))
                eq_refl
                ltac:(vm_compute; repeat constructor; intros [])
                ltac:(vm_compute; lia)
                ltac:(vm_compute; reflexivity))
      as [_ H].
    change (User.findOne "ann@example.org" (users sample_store_after_guest))
      with (Some sample_guest_user) in H.
    destruct H as (_ & _ & _ & u' & Hfind & _ & Hid & Hname & Hphone & _).
    exists u'. repeat split; assumption.
Defined.

(* ================================================================== *)
(** * Further properties of the handlers *)

(* ------------------------------------------------------------------ *)
(** ** When a request is granted *)

Lemma blocks_in_list p s :
  blocks p s <->
  In s match p with
       | Authenticated _ => [confirmed; active]
       | Guest _ => [confirmed; active; pending]
       end.
Proof. destruct p; simpl; intuition congruence. Qed.

Lemma no_blocking_conflict p req st :
  (forall b, meets req st b -> ~ blocks p (Booking.status b)) ->
  (0 <? List.length
          (Booking.find
             (Booking.conflict_query (req_car req)
                match p with
                | Authenticated _ => [confirmed; active]
                | Guest _ => [confirmed; active; pending]
                end (req_startDate req) (req_endDate req))
             (bookings st)))%nat = false.
Proof.
  intros Hfree. destruct (0 <? _)%nat eqn:Hq; [|reflexivity].
  apply some_conflict_iff in Hq. destruct Hq as [b [Hin Hb]].
  apply conflict_query_spec in Hb. destruct Hb as (Hc & Hst & Hlo & Hhi).
  exfalso. apply (Hfree b); [repeat split; assumption|].
  now apply blocks_in_list.
Qed.

Lemma persist_grants f reply st :
  Booking.f_startDate f < Booking.f_endDate f ->
  0 <= Booking.f_totalAmount f ->
  Booking.required (Booking.f_pickupLocation f) = true ->
  Booking.required (Booking.f_returnLocation f) = true ->
  persist no_faults f reply st
  = (with_bookings (bookings st ++ [stored f (bookings st)]) st,
     reply (stored f (bookings st))).
Proof.
  intros Hr Ha Hpick Hret. unfold persist. simpl.
  now rewrite (create_ok f _ Hr Ha Hpick Hret).
Qed.

Lemma amount_sign (span price : Z) :
  0 < span ->
  (0 <= Number.mul_int (Math_ceil_div span MS_PER_DAY) price <-> 0 <= price).
Proof.
  intros Hspan. apply mul_int_sign.
  pose proof (Math_ceil_div_pos span MS_PER_DAY MS_PER_DAY_pos Hspan). lia.
Qed.

(** A request whose checks all pass is granted when the store answers. *)
Lemma granted_when now p req st car :
  now < req_startDate req -> req_startDate req < req_endDate req ->
  Car.findById (req_car req) (cars st) = Some car ->
  Car.isAvailable car = true ->
  0 <= Car.pricePerDay car ->
  (forall b, meets req st b -> ~ blocks p (Booking.status b)) ->
  exists b, created (snd (createReservation no_faults now p req st)) = Some b.
Proof.
  intros Hnow Hrange Hcar Havail Hprice Hfree.
  assert (Hs : (req_startDate req <=? now) = false) by (apply Z.leb_gt; lia).
  assert (He : (req_endDate req <=? req_startDate req) = false)
    by (apply Z.leb_gt; lia).
  pose proof (no_blocking_conflict p req st Hfree) as Hq.
  assert (Hamt : 0 <= Number.mul_int
                        (Math_ceil_div (req_endDate req - req_startDate req)
                           MS_PER_DAY)
                        (Car.pricePerDay car))
    by (apply amount_sign; lia).
  destruct p as [userId | g]; simpl in Hq |- *.
  - rewrite createBooking_eq, Hs, He, Hcar, Havail, Hq. simpl.
    rewrite persist_grants;
      [simpl; eauto | exact Hrange | exact Hamt | apply text_required ..].
  - rewrite createGuestBooking_eq, Hs, He, Hcar, Havail, Hq. simpl.
    destruct (User.findOne _ _); cbv zeta; unfold User.create;
      (rewrite persist_grants;
       [simpl; eauto | exact Hrange | exact Hamt | apply text_required ..]).
Qed.

(** X1.  With the store answering, a request is granted exactly when its
    start lies after the request time and before its end, the car exists,
    is flagged available and has a non-negative daily price, and no
    reservation of the car in a status that blocks the pathway meets the
    requested range. *)
Theorem granted_iff now p req st :
  (exists b, created (snd (createReservation no_faults now p req st))
             = Some b) <->
  now < req_startDate req /\ req_startDate req < req_endDate req /\
  exists car,
    Car.findById (req_car req) (cars st) = Some car /\
    Car.isAvailable car = true /\
    0 <= Car.pricePerDay car /\
    (forall b, meets req st b -> ~ blocks p (Booking.status b)).
Proof.
  split.
  - intros [b Hb].
    destruct (createReservation no_faults now p req st) as [st' r] eqn:Hrun.
    simpl in Hb.
    destruct (created_inv _ _ _ _ _ _ _ _ Hrun Hb)
      as (Hnow & Hrange & car & Hcar & Havail & _ & _ & _ & _ & _ & _ & _ &
          Hdays & Hamt & Hpos & Hp).
    split; [assumption | split; [assumption|]].
    exists car. split; [assumption | split; [assumption | split]].
    + rewrite Hamt, Hdays in Hpos. apply amount_sign in Hpos; [assumption|].
      lia.
    + intros x (Hin & Hc & Hlo & Hhi) Hblock.
      apply blocks_in_list in Hblock.
      assert (Hq : forall L,
                 Booking.find
                   (Booking.conflict_query (req_car req) L
                      (req_startDate req) (req_endDate req)) (bookings st)
                 = [] -> ~ In (Booking.status x) L).
      { intros L Hnil HL. rewrite find_nil in Hnil.
        specialize (Hnil x Hin).
        assert (Booking.conflict_query (req_car req) L (req_startDate req)
                  (req_endDate req) x = true)
          by (apply conflict_query_spec; auto).
        congruence. }
      destruct p; destruct Hp as (Hnil & _); exact (Hq _ Hnil Hblock).
  - intros (Hnow & Hrange & car & Hcar & Havail & Hprice & Hfree).
    now apply granted_when with (car := car).
Qed.

Lemma granted_iff_witness :
  exists b,
    created (snd (createReservation no_faults sample_now
                    (Authenticated 7%nat) sample_request
                    (sample_store_with cancelled))) = Some b.
Proof.
  apply (proj2 (granted_iff sample_now (Authenticated 7%nat) sample_request
                  (sample_store_with cancelled))).
  split; [vm_compute; reflexivity | split; [vm_compute; reflexivity|]].
  exists sample_car.
  split; [reflexivity | split; [reflexivity | split; [discriminate|]]].
  intros b ([<- | []] & _) [H | H]; discriminate H.
Defined.

(* ------------------------------------------------------------------ *)
(** ** What a creation request writes *)

Lemma persist_effect th f k s :
  cars (fst (persist th f k s)) = cars s /\
  users (fst (persist th f k s)) = users s /\
  (bookings (fst (persist th f k s)) = bookings s \/
   (Booking.f_startDate f < Booking.f_endDate f /\
    0 <= Booking.f_totalAmount f /\
    bookings (fst (persist th f k s))
    = bookings s ++ [stored f (bookings s)])).
Proof.
  destruct (persist_cases th f k s)
    as [E | (bs & x & Hc & [[_ E] | (_ & _ & E)])]; rewrite E; simpl;
    (split; [reflexivity | split; [reflexivity|]]).
  - now left.
  - right. apply create_inv in Hc. destruct Hc as (-> & -> & Hr & Ha). auto.
  - right. apply create_inv in Hc. destruct Hc as (-> & -> & Hr & Ha). auto.
Qed.

(** The effect of a creation request on the three collections, whatever the
    store does: the cars are as before; the reservations are as before or
    longer by the one validated document; an authenticated request leaves
    the users as they were. *)
Lemma run_effect th now p req st :
  let st' := fst (createReservation th now p req st) in
  cars st' = cars st /\
  (bookings st' = bookings st \/
   exists f car,
     Car.findById (req_car req) (cars st) = Some car /\
     bookings st' = bookings st ++ [stored f (bookings st)] /\
     Booking.f_car f = req_car req /\
     Booking.f_startDate f = req_startDate req /\
     Booking.f_endDate f = req_endDate req /\
     Booking.f_totalAmount f
     = Number.mul_int
         (Math_ceil_div (req_endDate req - req_startDate req) MS_PER_DAY)
         (Car.pricePerDay car) /\
     Booking.f_startDate f < Booking.f_endDate f /\
     0 <= Booking.f_totalAmount f /\
     (Booking.f_status f = None \/ Booking.f_status f = Some pending)) /\
  match p with
  | Authenticated _ => users st' = users st
  | Guest _ => True
  end.
Proof.
  assert (Hp : forall f k s car,
    cars s = cars st -> bookings s = bookings st ->
    Car.findById (req_car req) (cars st) = Some car ->
    Booking.f_car f = req_car req ->
    Booking.f_startDate f = req_startDate req ->
    Booking.f_endDate f = req_endDate req ->
    Booking.f_totalAmount f
    = Number.mul_int
        (Math_ceil_div (req_endDate req - req_startDate req) MS_PER_DAY)
        (Car.pricePerDay car) ->
    (Booking.f_status f = None \/ Booking.f_status f = Some pending) ->
    cars (fst (persist th f k s)) = cars st /\
    (bookings (fst (persist th f k s)) = bookings st \/
     exists f0 car0,
       Car.findById (req_car req) (cars st) = Some car0 /\
       bookings (fst (persist th f k s))
       = bookings st ++ [stored f0 (bookings st)] /\
       Booking.f_car f0 = req_car req /\
       Booking.f_startDate f0 = req_startDate req /\
       Booking.f_endDate f0 = req_endDate req /\
       Booking.f_totalAmount f0
       = Number.mul_int
           (Math_ceil_div (req_endDate req - req_startDate req) MS_PER_DAY)
           (Car.pricePerDay car0) /\
       Booking.f_startDate f0 < Booking.f_endDate f0 /\
       0 <= Booking.f_totalAmount f0 /\
       (Booking.f_status f0 = None \/ Booking.f_status f0 = Some pending)) /\
    users (fst (persist th f k s)) = users s).
  { intros f k s car Hc Hb Hcar H1 H2 H3 H4 H5.
    destruct (persist_effect th f k s) as (Ec & Eu & [Eb | (Hr & Ha & Eb)]).
    - rewrite Ec, Eb. auto.
    - rewrite Ec, Eb, Hb. split; [assumption|]. split; [|assumption].
      right. exists f, car. repeat split; assumption. }
  cbv zeta. destruct p as [userId | g]; simpl.
  - rewrite createBooking_eq.
    repeat match goal with
           | |- context [if ?c then (_, _) else _] =>
               destruct c; try (simpl; auto; fail)
           | |- context [match Car.findById ?a ?b with _ => _ end] =>
               destruct (Car.findById a b) eqn:?; try (simpl; auto; fail)
           end.
    all: match goal with
         | |- context [persist _ ?f ?k ?s] =>
             destruct (Hp f k s t) as (H1 & H2 & H3);
             try reflexivity; auto
         end.
  - rewrite createGuestBooking_eq. unfold User.create.
    repeat match goal with
           | |- context [if ?c then (_, _) else _] =>
               destruct c; try (simpl; auto; fail)
           | |- context [match Car.findById ?a ?b with _ => _ end] =>
               destruct (Car.findById a b) eqn:?; try (simpl; auto; fail)
           | |- context [match User.findOne ?a ?b with _ => _ end] =>
               destruct (User.findOne a b); cbv zeta;
               try (simpl; auto; fail)
           end.
    all: match goal with
         | |- context [persist _ ?f ?k ?s] =>
             destruct (Hp f k s t) as (H1 & H2 & H3);
             try reflexivity; auto
         end.
Qed.

Lemma status_update_effect th bookingId newStatus st :
  let st' := fst (updateBookingStatus th bookingId newStatus st) in
  cars st' = cars st /\ users st' = users st /\
  (bookings st' = bookings st \/
   bookings st' = Booking.update_status bookingId newStatus (bookings st)).
Proof.
  cbv zeta. rewrite updateBookingStatus_eq.
  destruct (th BookingFindByIdAndUpdate); [simpl; auto|].
  destruct (Booking.findById _ _); [|simpl; auto].
  cbv zeta. destruct (th BookingPopulate); simpl; auto.
Qed.

Lemma stored_sound f bs :
  Booking.f_startDate f < Booking.f_endDate f ->
  0 <= Booking.f_totalAmount f ->
  sound_booking (stored f bs).
Proof.
  intros Hr Ha. unfold sound_booking, stored. cbn.
  repeat split; try assumption.
  apply Math_ceil_div_pos; [apply MS_PER_DAY_pos | lia].
Qed.

Lemma update_status_sound i s bs :
  Forall sound_booking bs ->
  Forall sound_booking (Booking.update_status i s bs).
Proof.
  induction 1 as [|b bs Hb Hbs IH]; simpl; [constructor|].
  destruct (Nat.eqb (Booking.id b) i); constructor; assumption.
Qed.

Lemma update_status_ids i s bs :
  map Booking.id (Booking.update_status i s bs) = map Booking.id bs.
Proof.
  induction bs as [|b bs IH]; simpl; [reflexivity|].
  destruct (Nat.eqb (Booking.id b) i); simpl; [reflexivity | now rewrite IH].
Qed.

(** X2.  Reservations stay sound.  If every stored reservation has its
    start before its end, a [totalDays] that is the ceiling of its span in
    days and at least 1, and a non-negative [totalAmount], the same holds
    after any creation request and after any status change, whatever the
    store does meanwhile. *)
Theorem reservations_stay_sound st :
  Forall sound_booking (bookings st) ->
  (forall th now p req,
      Forall sound_booking
        (bookings (fst (createReservation th now p req st)))) /\
  (forall th bookingId newStatus,
      Forall sound_booking
        (bookings (fst (updateBookingStatus th bookingId newStatus st)))).
Proof.
  intros Hsound. split.
  - intros th now p req.
    destruct (run_effect th now p req st) as (_ & [E | E] & _);
      cbv zeta in E.
    + now rewrite E.
    + destruct E as (f & car & _ & E & _ & _ & _ & _ & Hr & Ha & _).
      rewrite E. apply Forall_app. split; [assumption|].
      constructor; [now apply stored_sound | constructor].
  - intros th i s.
    destruct (status_update_effect th i s st) as (_ & _ & [E | E]);
      cbv zeta in E; rewrite E; [assumption|].
    now apply update_status_sound.
Qed.

Lemma reservations_stay_sound_witness :
  Forall sound_booking
    (bookings (fst (createReservation populate_fails sample_now
                      (Guest sample_guest) sample_request_later
                      (sample_store_with completed)))).
Proof.
  apply (proj1 (reservations_stay_sound (sample_store_with completed)
                  ltac:(repeat constructor; vm_compute; congruence))).
Defined.

Lemma guest_user_ids th now req g st :
  unique_user_ids (users st) ->
  unique_user_ids (users (fst (createGuestBooking th now req g st))).
Proof.
  intros Hu. destruct (users_after th now req g st) as [[E _] | H];
    cbv zeta in *.
  - now rewrite E.
  - destruct (User.findOne (guest_email g) (users st)).
    + destruct H as [E _]. rewrite E. unfold unique_user_ids.
      now rewrite save_ids.
    + destruct H as [E _]. rewrite E. unfold unique_user_ids.
      rewrite map_app. simpl.
      apply NoDup_app; [exact Hu | repeat constructor; intros [] |].
      intros a Ha [<- | []]. exact (fresh_not_in _ Ha).
Qed.

(** Ids stay unique.  On a store whose reservations carry pairwise
    different ids, any creation request and any status change leave them
    pairwise different; the same holds of the user ids across a creation
    request. *)
Lemma ids_stay_unique st :
  unique_booking_ids (bookings st) ->
  (forall th now p req,
      unique_booking_ids
        (bookings (fst (createReservation th now p req st)))) /\
  (forall th bookingId newStatus,
      unique_booking_ids
        (bookings (fst (updateBookingStatus th bookingId newStatus st)))) /\
  (unique_user_ids (users st) ->
   forall th now p req,
     unique_user_ids (users (fst (createReservation th now p req st)))).
Proof.
  unfold unique_booking_ids. intros Huniq. split; [|split].
  - intros th now p req.
    destruct (run_effect th now p req st) as (_ & [E | E] & _);
      cbv zeta in E.
    + now rewrite E.
    + destruct E as (f & car & _ & E & _). rewrite E, map_app. simpl.
      apply NoDup_app; [assumption | repeat constructor; intros [] |].
      intros a Ha [<- | []]. unfold stored in Ha. cbn in Ha.
      exact (fresh_not_in _ Ha).
  - intros th i s.
    destruct (status_update_effect th i s st) as (_ & _ & [E | E]);
      cbv zeta in E; rewrite E; [assumption|].
    now rewrite update_status_ids.
  - intros Hu th now p req. destruct p as [userId | g].
    + destruct (run_effect th now (Authenticated userId) req st)
        as (_ & _ & E).
      cbv zeta in E. now rewrite E.
    + simpl. now apply guest_user_ids.
Qed.

Lemma ids_stay_unique_witness :
  unique_booking_ids
    (bookings (fst (createReservation no_faults sample_now
                      (Guest sample_guest) sample_request_later
                      (sample_store_with pending)))).
Proof.
  apply (proj1 (ids_stay_unique (sample_store_with pending)
                  ltac:(repeat constructor; intros []))).
Defined.

(** X3.  No handler writes the car collection: granting or refusing a
    booking, changing a status and checking availability all leave every
    car, its price and its availability flag as they were, whatever the
    store does.  An authenticated booking and a status change leave the
    users as they were too, and an availability check leaves the whole
    store untouched. *)
Theorem cars_never_written st :
  (forall th now p req,
      cars (fst (createReservation th now p req st)) = cars st) /\
  (forall th now userId req,
      users (fst (createBooking th now userId req st)) = users st) /\
  (forall th bookingId newStatus,
      cars (fst (updateBookingStatus th bookingId newStatus st)) = cars st /\
      users (fst (updateBookingStatus th bookingId newStatus st))
      = users st) /\
  (forall th carId startDate endDate,
      fst (checkAvailability th carId startDate endDate st) = st).
Proof.
  split; [|split; [|split]].
  - intros th now p req. apply (run_effect th now p req st).
  - intros th now userId req.
    apply (run_effect th now (Authenticated userId) req st).
  - intros th i s.
    destruct (status_update_effect th i s st) as (Hc & Hu & _). auto.
  - intros th c s e. rewrite checkAvailability_eq.
    destruct (th CarFindById); [reflexivity|].
    destruct (Car.findById c (cars st)); [|reflexivity].
    destruct (th BookingFind); reflexivity.
Qed.

(* ------------------------------------------------------------------ *)
(** ** Availability check and booking *)

Lemma find_nil_free req st L :
  Booking.find
    (Booking.conflict_query (req_car req) L (req_startDate req)
       (req_endDate req)) (bookings st) = [] <->
  (forall b, meets req st b -> ~ In (Booking.status b) L).
Proof.
  rewrite find_nil. split.
  - intros H b (Hin & Hc & Hlo & Hhi) HL. specialize (H b Hin).
    assert (Booking.conflict_query (req_car req) L (req_startDate req)
              (req_endDate req) b = true)
      by (apply conflict_query_spec; auto).
    congruence.
  - intros H b Hin.
    destruct (Booking.conflict_query _ _ _ _ b) eqn:Hq; [|reflexivity].
    apply conflict_query_spec in Hq. destruct Hq as (Hc & HL & Hlo & Hhi).
    exfalso. apply (H b); [repeat split; assumption | assumption].
Qed.

Lemma says_available_iff carId startDate endDate st :
  says_available
    (snd (checkAvailability no_faults carId startDate endDate st)) = true <->
  exists car,
    Car.findById carId (cars st) = Some car /\
    Car.isAvailable car = true /\
    Booking.find
      (Booking.conflict_query carId [confirmed; active] startDate endDate)
      (bookings st) = [].
Proof.
  rewrite checkAvailability_eq. simpl.
  destruct (Car.findById carId (cars st)) as [car|]; simpl.
  - rewrite andb_true_iff, Nat.eqb_eq, length_zero_iff_nil. split.
    + intros [H1 H2]. exists car. auto.
    + intros (c & Hc & H1 & H2). inversion Hc; subst. auto.
  - split; [discriminate | intros (c & Hc & _); discriminate].
Qed.

(** X4.  The availability check and the booking handlers agree as follows.
    For a request with valid dates on a car whose daily price is not
    negative (and a store that answers), the check says "available" exactly
    when the authenticated handler would grant the request; whenever the
    guest handler would grant it, the check says "available" as well. *)
Theorem availability_agrees_with_booking now userId g req st :
  now < req_startDate req -> req_startDate req < req_endDate req ->
  (forall car, Car.findById (req_car req) (cars st) = Some car ->
               0 <= Car.pricePerDay car) ->
  let available :=
    says_available
      (snd (checkAvailability no_faults (req_car req) (req_startDate req)
              (req_endDate req) st)) in
  (available = true <->
   exists b, created (snd (createBooking no_faults now userId req st))
             = Some b) /\
  ((exists b, created (snd (createGuestBooking no_faults now req g st))
              = Some b) ->
   available = true).
Proof.
  intros Hnow Hrange Hprice. cbv zeta. split; [split|].
  - intros Hav. apply says_available_iff in Hav.
    destruct Hav as (car & Hcar & Havail & Hnil).
    apply (granted_when now (Authenticated userId) req st car);
      try assumption.
    + now apply Hprice.
    + intros x Hm Hblock. apply blocks_in_list in Hblock.
      exact (proj1 (find_nil_free req st _) Hnil x Hm Hblock).
  - intros [b Hb].
    destruct (createBooking no_faults now userId req st) as [st' r] eqn:Hrun.
    destruct (created_inv no_faults now (Authenticated userId) req st st' r b
                Hrun Hb)
      as (_ & _ & car & Hcar & Havail & _ & _ & _ & _ & _ & _ & _ & _ & _ &
          _ & Hnil & _).
    apply says_available_iff. exists car. auto.
  - intros [b Hb].
    destruct (createGuestBooking no_faults now req g st) as [st' r] eqn:Hrun.
    destruct (created_inv no_faults now (Guest g) req st st' r b Hrun Hb)
      as (_ & _ & car & Hcar & Havail & _ & _ & _ & _ & _ & _ & _ & _ & _ &
          _ & Hnil & _).
    apply says_available_iff. exists car.
    split; [assumption | split; [assumption|]].
    now apply no_conflict_weaken.
Qed.

Lemma availability_agrees_with_booking_witness :
  says_available
    (snd (checkAvailability no_faults 1%nat (Date_of_ymd 2099 1 10)
            (Date_of_ymd 2099 1 13) (sample_store_with pending))) = true.
Proof.
  apply (proj1 (availability_agrees_with_booking sample_now 7%nat
                  sample_guest sample_request (sample_store_with pending)
                  ltac:(vm_compute; reflexivity)
                  ltac:(vm_compute; reflexivity)
                  ltac:(intros car H; vm_compute in H; inversion H;
                        discriminate))).
  eexists. vm_compute. reflexivity.
Defined.

(* ------------------------------------------------------------------ *)
(** ** Status changes and later requests *)

Lemma in_update_status i s bs b' :
  unique_booking_ids bs ->
  In b' (Booking.update_status i s bs) ->
  (In b' bs /\ Booking.id b' <> i) \/
  (exists b, In b bs /\ Booking.id b = i /\ b' = Booking.set_status s b).
Proof.
  unfold unique_booking_ids.
  induction bs as [|x bs IH]; simpl; [intros _ []|].
  intros Hnd Hin. inversion Hnd as [|y l Hnotin Hnd']; subst.
  destruct (Nat.eqb (Booking.id x) i) eqn:Hx.
  - apply Nat.eqb_eq in Hx. destruct Hin as [<- | Hin].
    + right. exists x. auto.
    + left. split; [now right|]. intros Hid. apply Hnotin.
      rewrite Hx, <- Hid. now apply in_map.
  - apply Nat.eqb_neq in Hx. destruct Hin as [<- | Hin].
    + left. auto.
    + destruct (IH Hnd' Hin) as [[H1 H2] | (b & H1 & H2 & H3)].
      * left. auto.
      * right. exists b. auto.
Qed.

(** X5.  Cancelling frees the dates.  On a store with unique reservation
    ids, let every reservation that blocks a request (valid dates, an
    existing available car with a non-negative price) carry the id [i].
    Once the status of [i] has been set to cancelled or completed, the
    request is granted. *)
Theorem cancelling_frees_dates now p req st car i s :
  unique_booking_ids (bookings st) ->
  s = cancelled \/ s = completed ->
  now < req_startDate req -> req_startDate req < req_endDate req ->
  Car.findById (req_car req) (cars st) = Some car ->
  Car.isAvailable car = true ->
  0 <= Car.pricePerDay car ->
  (forall b, meets req st b -> blocks p (Booking.status b) ->
             Booking.id b = i) ->
  exists b,
    created
      (snd (createReservation no_faults now p req
              (fst (updateBookingStatus no_faults i s st)))) = Some b.
Proof.
  intros Huniq Hs Hnow Hrange Hcar Havail Hprice Honly.
  apply granted_when with (car := car); try assumption.
  - destruct (status_update_effect no_faults i s st) as (Hc & _).
    cbv zeta in Hc. now rewrite Hc.
  - intros b (Hin & Hm) Hblock. revert Hin.
    rewrite updateBookingStatus_eq. simpl.
    destruct (Booking.findById i (bookings st)) as [b0|] eqn:Hfind; simpl.
    + intros Hin. apply (in_update_status _ _ _ _ Huniq) in Hin.
      destruct Hin as [[Hin Hid] | (x & Hin & Hid & ->)].
      * apply Hid. apply Honly; [split; assumption | assumption].
      * cbn in Hblock.
        destruct p; simpl in Hblock; destruct Hs; subst s;
          intuition discriminate.
    + intros Hin.
      apply (proj1 (findById_none _ _) Hfind b Hin).
      apply Honly; [split; assumption | assumption].
Qed.

Lemma cancelling_frees_dates_witness :
  exists b,
    created
      (snd (createReservation no_faults sample_now (Guest sample_guest)
              sample_request
              (fst (updateBookingStatus no_faults 1%nat cancelled
                      (sample_store_with confirmed))))) = Some b.
Proof.
  apply (cancelling_frees_dates sample_now (Guest sample_guest)
           sample_request (sample_store_with confirmed) sample_car 1%nat
           cancelled).
  - repeat constructor. intros [].
  - left. reflexivity.
  - vm_compute. reflexivity.
  - vm_compute. reflexivity.
  - reflexivity.
  - reflexivity.
  - discriminate.
  - intros b ([<- | []] & _) _. reflexivity.
Defined.

Lemma findById_app_fresh b bs :
  ~ In (Booking.id b) (map Booking.id bs) ->
  Booking.findById (Booking.id b) (bs ++ [b]) = Some b /\
  forall s,
    Booking.update_status (Booking.id b) s (bs ++ [b])
    = bs ++ [Booking.set_status s b].
Proof.
  unfold Booking.findById. induction bs as [|x bs IH]; simpl; intros Hnotin.
  - rewrite Nat.eqb_refl. split; reflexivity.
  - destruct (Nat.eqb (Booking.id x) (Booking.id b)) eqn:Hx.
    + apply Nat.eqb_eq in Hx. exfalso. apply Hnotin. now left.
    + destruct IH as [H1 H2]; [intros H; apply Hnotin; now right|].
      split; [assumption|]. intros s. now rewrite H2.
Qed.

(** X6.  Confirming blocks the dates.  Once a granted reservation has been
    set to confirmed or active, every later request for the same car and
    dates, authenticated or guest, is turned down as a conflict. *)
Theorem confirming_blocks_dates th1 now1 now2 p1 p2 req req2 st b1 s :
  created (snd (createReservation th1 now1 p1 req st)) = Some b1 ->
  s = confirmed \/ s = active ->
  req_car req2 = req_car req ->
  req_startDate req2 = req_startDate req ->
  req_endDate req2 = req_endDate req ->
  now2 < req_startDate req ->
  let st1 := fst (createReservation th1 now1 p1 req st) in
  let st2 := fst (updateBookingStatus no_faults (Booking.id b1) s st1) in
  snd (createReservation no_faults now2 p2 req2 st2) = DatesTaken.
Proof.
  intros Hb Hs Hc2 Hs2 He2 Hnow2 st1 st2. subst st1 st2.
  destruct (createReservation th1 now1 p1 req st) as [st1 r1] eqn:Hrun.
  simpl in Hb |- *.
  destruct (created_inv _ _ _ _ _ _ _ _ Hrun Hb)
    as (Hnow & Hrange & car & Hcar & Havail & Hcars & Hbs & Hid & Hbcar &
        Hbs1 & Hbe1 & _).
  assert (Hfresh : ~ In (Booking.id b1) (map Booking.id (bookings st)))
    by (rewrite Hid; apply fresh_not_in).
  destruct (findById_app_fresh b1 (bookings st) Hfresh) as [Hfind Hupd].
  assert (Hst2 :
    fst (updateBookingStatus no_faults (Booking.id b1) s st1)
    = with_bookings (bookings st ++ [Booking.set_status s b1]) st1).
  { rewrite updateBookingStatus_eq. simpl. rewrite Hbs, Hfind. simpl.
    now rewrite Hupd. }
  rewrite Hst2.
  apply (conflict_reply_iff no_faults now2 p2 req2 _ car);
    try reflexivity; try lia.
  - simpl. now rewrite Hcars, Hc2.
  - assumption.
  - exists (Booking.set_status s b1). split.
    + split; [simpl; apply in_or_app; right; now left|]. cbn.
      rewrite Hbcar, Hbs1, Hbe1, Hc2, Hs2, He2.
      split; [reflexivity | lia].
    + cbn. destruct p2; simpl; tauto.
Qed.

Lemma confirming_blocks_dates_witness :
  snd (createReservation no_faults sample_now (Authenticated 8%nat)
         sample_request
         (fst (updateBookingStatus no_faults 1%nat confirmed
                 (fst (createReservation no_faults sample_now
                         (Authenticated 7%nat) sample_request
                         sample_store))))) = DatesTaken.
Proof.
  apply (confirming_blocks_dates no_faults sample_now sample_now
           (Authenticated 7%nat) (Authenticated 8%nat) sample_request
           sample_request sample_store (sample_booking pending) confirmed).
  - vm_compute. reflexivity.
  - left. reflexivity.
  - reflexivity.
  - reflexivity.
  - reflexivity.
  - vm_compute. reflexivity.
Defined.

Lemma update_status_twice i s1 s2 bs :
  Booking.update_status i s2 (Booking.update_status i s1 bs)
  = Booking.update_status i s2 bs.
Proof.
  induction bs as [|x bs IH]; simpl; [reflexivity|].
  destruct (Nat.eqb (Booking.id x) i) eqn:Hx; simpl.
  - cbn [Booking.id Booking.set_status]. rewrite Hx. reflexivity.
  - rewrite Hx. now rewrite IH.
Qed.

(** X7.  The last status change wins.  With the store answering, changing
    the status of a reservation twice gives the same store and the same
    reply as making only the second change; in particular repeating a
    change changes nothing further. *)
Theorem last_status_change_wins bookingId s1 s2 st :
  updateBookingStatus no_faults bookingId s2
    (fst (updateBookingStatus no_faults bookingId s1 st))
  = updateBookingStatus no_faults bookingId s2 st.
Proof.
  rewrite !updateBookingStatus_eq. simpl.
  destruct (Booking.findById bookingId (bookings st)) as [b|] eqn:Hfind;
    simpl.
  - rewrite (findById_update_same _ s1 _ _ Hfind). simpl.
    rewrite update_status_twice. destruct st, b; reflexivity.
  - rewrite Hfind. destruct st; reflexivity.
Qed.

(* ------------------------------------------------------------------ *)
(** ** The booking schema *)

(** X8.  [Booking.create] rejects a literal exactly when its start is not
    before its end, its amount is negative, or one of the two [required]
    location strings is empty, and then inserts nothing.  Otherwise it
    appends exactly one document, under an id no stored document carries,
    whose [totalDays] is recomputed from the two dates whatever value was
    passed in, whose [totalAmount] is the value passed in, and whose status
    and payment status default to pending.  This is for dates less than
    2^53 ms apart, where the exact ceiling is what the hook's subtraction
    and division of doubles give. *)
Theorem create_validates f bs :
  Z.abs (Booking.f_endDate f - Booking.f_startDate f) < 2 ^ 53 ->
  (Booking.create f bs = None <->
   Booking.f_startDate f >= Booking.f_endDate f \/
   Booking.f_totalAmount f < 0 \/
   Booking.f_pickupLocation f = EmptyString \/
   Booking.f_returnLocation f = EmptyString) /\
  (forall bs' b,
      Booking.create f bs = Some (bs', b) ->
      bs' = bs ++ [b] /\
      ~ In (Booking.id b) (map Booking.id bs) /\
      Booking.totalDays b
      = Math_ceil_div (Booking.f_endDate f - Booking.f_startDate f)
          MS_PER_DAY /\
      Booking.totalDays b
      = Number.ceil_quotient (Booking.f_endDate f - Booking.f_startDate f)
          MS_PER_DAY /\
      Booking.totalAmount b = Booking.f_totalAmount f /\
      Booking.pickupLocation b = Booking.f_pickupLocation f /\
      Booking.returnLocation b = Booking.f_returnLocation f /\
      Booking.status b
      = match Booking.f_status f with Some s => s | None => pending end /\
      Booking.paymentStatus b = PaymentStatus.pending).
Proof.
  intros Hspan. split.
  - split.
    + intros Hnone.
      destruct (Z_lt_ge_dec (Booking.f_startDate f) (Booking.f_endDate f))
        as [Hr | Hr]; [|now left].
      destruct (Z_lt_ge_dec (Booking.f_totalAmount f) 0) as [Ha | Ha];
        [now right; left|].
      destruct (Booking.required (Booking.f_pickupLocation f)) eqn:Hpick.
      * destruct (Booking.required (Booking.f_returnLocation f)) eqn:Hret.
        -- rewrite create_ok in Hnone;
             [discriminate | assumption | lia | assumption | assumption].
        -- right; right; right.
           destruct (Booking.f_returnLocation f); [reflexivity|discriminate].
      * right; right; left.
        destruct (Booking.f_pickupLocation f); [reflexivity|discriminate].
    + intros Hbad.
      destruct (Booking.create f bs) as [[bs' b]|] eqn:Hc; [|reflexivity].
      exfalso.
      pose proof (create_inv_locations _ _ _ _ Hc) as [Hpick Hret].
      apply create_inv in Hc.
      destruct Hbad as [H | [H | [H | H]]]; [lia | lia | |].
      * rewrite H in Hpick. discriminate.
      * rewrite H in Hret. discriminate.
  - intros bs' b Hc. apply create_inv in Hc.
    destruct Hc as (-> & -> & Hr & _).
    unfold stored.
    cbn [Booking.id Booking.totalDays Booking.totalAmount Booking.status
         Booking.paymentStatus Booking.pickupLocation Booking.returnLocation
         Booking.set_totalDays Booking.construct].
    split; [reflexivity|]. split; [apply fresh_not_in|].
    split; [reflexivity|].
    split; [|repeat split].
    symmetry. apply ceil_quotient_exact; [|apply MS_PER_DAY_pos]. lia.
Qed.

Lemma create_validates_witness :
  Booking.totalDays
    (stored (auth_fields 7%nat sample_request sample_car) []) = 3.
Proof.
  apply (proj2 (create_validates
                  (auth_fields 7%nat sample_request sample_car) []
                  ltac:(vm_compute; reflexivity))
           ([] ++ [stored (auth_fields 7%nat sample_request sample_car) []])
           (stored (auth_fields 7%nat sample_request sample_car) [])).
  vm_compute. reflexivity.
Defined.

Lemma Math_ceil_div_mono (n m d : Z) :
  0 < d -> n <= m -> Math_ceil_div n d <= Math_ceil_div m d.
Proof.
  intros Hd Hnm.
  pose proof (Math_ceil_div_spec n d Hd).
  pose proof (Math_ceil_div_spec m d Hd).
  nia.
Qed.

(** X9.  A longer rental never costs less.  Of two requests for the same
    car that the same store would each grant, the one with the longer span
    gets at least as many days and at least as high an amount. *)
Theorem longer_rental_costs_no_less th1 th2 now1 now2 p1 p2 req1 req2 st
    b1 b2 :
  created (snd (createReservation th1 now1 p1 req1 st)) = Some b1 ->
  created (snd (createReservation th2 now2 p2 req2 st)) = Some b2 ->
  req_car req1 = req_car req2 ->
  req_endDate req1 - req_startDate req1
  <= req_endDate req2 - req_startDate req2 ->
  Booking.totalDays b1 <= Booking.totalDays b2 /\
  Booking.totalAmount b1 <= Booking.totalAmount b2.
Proof.
  intros Hb1 Hb2 Hcar Hspan.
  destruct (createReservation th1 now1 p1 req1 st) as [st1 r1] eqn:Hrun1.
  destruct (createReservation th2 now2 p2 req2 st) as [st2 r2] eqn:Hrun2.
  simpl in Hb1, Hb2.
  destruct (created_inv _ _ _ _ _ _ _ _ Hrun1 Hb1)
    as (_ & Hr1 & car1 & Hcar1 & _ & _ & _ & _ & _ & _ & _ & _ & Hd1 & Ha1 &
        Hp1 & _).
  destruct (created_inv _ _ _ _ _ _ _ _ Hrun2 Hb2)
    as (_ & Hr2 & car2 & Hcar2 & _ & _ & _ & _ & _ & _ & _ & _ & Hd2 & Ha2 &
        Hp2 & _).
  rewrite Hcar, Hcar2 in Hcar1. inversion Hcar1; subst car1.
  assert (Hdays : Booking.totalDays b1 <= Booking.totalDays b2).
  { rewrite Hd1, Hd2.
    apply Math_ceil_div_mono; [apply MS_PER_DAY_pos | assumption]. }
  split; [assumption|].
  assert (1 <= Booking.totalDays b1).
  { rewrite Hd1. apply Math_ceil_div_pos; [apply MS_PER_DAY_pos | lia]. }
  rewrite Ha1 in Hp1. apply mul_int_sign in Hp1; [|lia].
  rewrite Ha1, Ha2. now apply mul_int_mono.
Qed.

Lemma longer_rental_costs_no_less_witness :
  Booking.totalAmount (sample_booking pending)
  <= Booking.totalAmount
       (stored
          (auth_fields 7%nat
             {| req_car := 1%nat;
                req_startDate := Date_of_ymd 2099 1 10;
                req_endDate := Date_of_ymd 2099 1 13 + 1;
                req_pickupLocation := nonempty "A" "irport";
                req_returnLocation := nonempty "A" "irport";
                req_specialRequests := None |} sample_car) []).
Proof.
  refine (proj2
    (longer_rental_costs_no_less no_faults no_faults sample_now sample_now
       (Authenticated 7%nat) (Authenticated 7%nat) sample_request
       {| req_car := 1%nat;
          req_startDate := Date_of_ymd 2099 1 10;
          req_endDate := Date_of_ymd 2099 1 13 + 1;
          req_pickupLocation := nonempty "A" "irport";
          req_returnLocation := nonempty "A" "irport";
          req_specialRequests := None |}
       sample_store _ _ _ _ _ _)).
  - vm_compute. reflexivity.
  - vm_compute. reflexivity.
  - reflexivity.
  - vm_compute. discriminate.
Defined.

(* ------------------------------------------------------------------ *)
(** ** Users beside the guest identity *)

Lemma in_save_other u v us :
  In v us -> User.id v <> User.id u -> In v (User.save u us).
Proof.
  induction us as [|x us IH]; simpl; [intros []|].
  intros [-> | Hin] Hid.
  - destruct (Nat.eqb (User.id v) (User.id u)) eqn:Hv.
    + apply Nat.eqb_eq in Hv. contradiction.
    + now left.
  - destruct (Nat.eqb (User.id x) (User.id u)); right; auto.
Qed.

Lemma same_id_same_user u v us :
  unique_user_ids us -> In u us -> In v us -> User.id u = User.id v -> u = v.
Proof.
  unfold unique_user_ids. induction us as [|x us IH]; simpl; [intros _ []|].
  intros Hnd Hu Hv Hid. inversion Hnd as [|y l Hnotin Hnd']; subst.
  destruct Hu as [<- | Hu], Hv as [<- | Hv].
  - reflexivity.
  - exfalso. apply Hnotin. rewrite Hid. now apply in_map.
  - exfalso. apply Hnotin. rewrite <- Hid. now apply in_map.
  - now apply IH.
Qed.

(** X10.  A guest booking touches no user but the guest identity of its
    email.  On a store with unique user ids, every user document that is
    not a guest identity (a registered account, even one with the same
    email) or that belongs to another email is still in the collection,
    unchanged, after any guest request. *)
Theorem guest_booking_spares_other_users th now req g st v :
  unique_user_ids (users st) ->
  In v (users st) ->
  User.isGuest v = false \/ User.email v <> guest_email g ->
  In v (users (fst (createGuestBooking th now req g st))).
Proof.
  intros Huniq Hin Hother.
  destruct (users_after th now req g st) as [[E _] | H]; cbv zeta in *.
  - now rewrite E.
  - destruct (User.findOne (guest_email g) (users st)) as [u|] eqn:Hfind.
    + destruct H as [E _]. rewrite E.
      apply findOne_some in Hfind. destruct Hfind as (Hu & Hem & Hg).
      apply in_save_other; [assumption|]. cbn. intros Hid.
      assert (v = u) by (now apply (same_id_same_user _ _ (users st))).
      subst v. destruct Hother; congruence.
    + destruct H as [E _]. rewrite E. apply in_or_app. now left.
Qed.

Lemma guest_booking_spares_other_users_witness :
  In sample_user
    (users (fst (createGuestBooking no_faults sample_now sample_request_later
                   {| guest_name := "Bo"; guest_email := "bo@example.org";
                      guest_phone := "555-0123" |}
                   (sample_store_with_user pending)))).
Proof.
  apply guest_booking_spares_other_users.
  - repeat constructor. intros [].
  - now left.
  - left. reflexivity.
Defined.

(* ------------------------------------------------------------------ *)
(** ** Reading one booking *)

Lemma populated_user_some b st u :
  populated_user b st = Some u ->
  In u (users st) /\ User.id u = Booking.user b.
Proof.
  unfold populated_user. intros H. apply find_some in H.
  destruct H as [Hin Hid]. apply Nat.eqb_eq in Hid. auto.
Qed.

Lemma populated_user_found b st :
  (exists u, In u (users st) /\ User.id u = Booking.user b) ->
  exists u, populated_user b st = Some u.
Proof.
  intros [u [Hin Hid]]. unfold populated_user.
  destruct (List.find _ (users st)) as [x|] eqn:Hf; [eauto|].
  apply (find_none _ _ Hf) in Hin. apply Nat.eqb_neq in Hin. contradiction.
Qed.

Lemma is_admin_iff r : is_admin r = true <-> r = User.role_admin.
Proof. destruct r; simpl; split; congruence. Qed.

(* Split a reply-by-reply characterisation into its directions and clear
   the cases that equations between constructors decide. *)
Ltac split_all :=
  repeat match goal with
         | |- _ /\ _ => split
         | |- _ <-> _ => split
         | |- forall _, _ => intro
         end.

Ltac open_all :=
  repeat match goal with
         | H : _ /\ _ |- _ => destruct H
         | H : exists _, _ |- _ => destruct H
         | H : Some ?a = Some ?c |- _ =>
             assert (a = c) by congruence; clear H; try subst
         | H : BookingData ?a = BookingData ?c |- _ =>
             assert (a = c) by congruence; clear H; try subst
         end.

(** X11.  Who may read a booking.  [GET /api/bookings/:id] answers with a
    booking exactly when the store answers, this is the stored booking of
    that id, its user document exists, and the requester is that user or an
    admin.  It answers 403 exactly when the booking and its user exist and
    the requester is neither; 404 exactly when no booking has the id; and it
    fails with a [TypeError], for every requester including an admin, when
    the booking's user document is gone. *)
Theorem booking_access_control th userId role bookingId st :
  (forall b,
      getBookingById th userId role bookingId st = BookingData b <->
      th 1%nat = false /\
      Booking.findById bookingId (bookings st) = Some b /\
      (exists u, populated_user b st = Some u) /\
      (Booking.user b = userId \/ role = User.role_admin)) /\
  (getBookingById th userId role bookingId st = NotAuthorized <->
   th 1%nat = false /\
   exists b u,
     Booking.findById bookingId (bookings st) = Some b /\
     populated_user b st = Some u /\
     Booking.user b <> userId /\ role <> User.role_admin) /\
  (getBookingById th userId role bookingId st = NoSuchBooking <->
   th 1%nat = false /\ Booking.findById bookingId (bookings st) = None) /\
  (getBookingById th userId role bookingId st = Failed TypeError <->
   th 1%nat = false /\
   exists b,
     Booking.findById bookingId (bookings st) = Some b /\
     populated_user b st = None).
Proof.
  unfold getBookingById, answer, read_bind, awaited.
  destruct (th 1%nat);
    [split_all; try discriminate; open_all; discriminate|].
  destruct (Booking.findById bookingId (bookings st)) as [b|];
    [|split_all; try discriminate; open_all; try discriminate; auto].
  destruct (populated_user b st) as [u|] eqn:Hpop.
  - destruct (populated_user_some _ _ _ Hpop) as [Hin Hid].
    pose proof (is_admin_iff role) as Hadm'.
    destruct (Nat.eqb (User.id u) userId) eqn:Hown;
      [apply Nat.eqb_eq in Hown | apply Nat.eqb_neq in Hown];
      destruct (is_admin role) eqn:Hadm; simpl;
      split_all; try discriminate; open_all;
      try congruence;
      try (exfalso; intuition congruence);
      try (repeat split; eauto; intuition congruence).
    exists b, u. repeat split; auto; try congruence.
    intros Hr. apply Hadm' in Hr. discriminate Hr.
  - split_all; try discriminate; open_all; try congruence; eauto.
Qed.

Lemma booking_access_control_witness :
  getBookingById quiet 8%nat User.role_user 1%nat
    (sample_store_with_user pending) = NotAuthorized.
Proof.
  apply (proj1 (proj2 (booking_access_control quiet 8%nat User.role_user
                         1%nat (sample_store_with_user pending)))).
  split; [reflexivity|].
  exists (sample_booking pending), sample_user.
  repeat split; [discriminate | discriminate].
Defined.

Lemma in_save_self u us :
  (exists x, In x us /\ User.id x = User.id u) -> In u (User.save u us).
Proof.
  induction us as [|v us IH]; simpl; intros [x [Hin Hid]]; [destruct Hin|].
  destruct (Nat.eqb (User.id v) (User.id u)) eqn:Hv; [now left|].
  apply Nat.eqb_neq in Hv. destruct Hin as [-> | Hin]; [contradiction|].
  right. apply IH. eauto.
Qed.

(** The user document a granted guest request books under is in the
    collection afterwards. *)
Lemma guest_identity_stored th now req g st b :
  created (snd (createGuestBooking th now req g st)) = Some b ->
  exists u,
    In u (users (fst (createGuestBooking th now req g st))) /\
    User.id u = Booking.user b.
Proof.
  intros Hb.
  destruct (users_after th now req g st) as [[_ Hnone] | H]; cbv zeta in *;
    [congruence|].
  destruct (User.findOne (guest_email g) (users st)) as [u|] eqn:Hfind.
  - destruct H as [E Hu]. rewrite E.
    exists (User.set_contact (guest_name g) (guest_phone g) u). split.
    + apply in_save_self. exists u. split; [|reflexivity].
      now apply findOne_some in Hfind.
    + cbn. symmetry. now apply Hu.
  - destruct H as [E Hu]. rewrite E. eexists. split.
    + apply in_or_app. right. now left.
    + cbn. symmetry. now apply Hu.
Qed.

(** X12.  A granted booking can be read back.  After a request has been
    granted, [GET /api/bookings/:id] with the id of the new reservation
    returns exactly that reservation to the user it is booked under and to
    any admin, and answers 403 to every other non-admin user.  (For an
    authenticated request the account must exist in the user collection;
    for a guest request the guest identity always does.) *)
Theorem granted_booking_reads_back th now p req st b :
  created (snd (createReservation th now p req st)) = Some b ->
  (forall userId, p = Authenticated userId ->
                  exists u, In u (users st) /\ User.id u = userId) ->
  let st' := fst (createReservation th now p req st) in
  (forall role,
      getBookingById quiet (Booking.user b) role (Booking.id b) st'
      = BookingData b) /\
  (forall other role,
      other <> Booking.user b ->
      getBookingById quiet other role (Booking.id b) st'
      = if is_admin role then BookingData b else NotAuthorized).
Proof.
  intros Hb Hacct st'.
  assert (Huser : exists u, populated_user b st' = Some u).
  { apply populated_user_found. subst st'.
    destruct p as [userId | g].
    - destruct (createReservation th now (Authenticated userId) req st)
        as [st1 r] eqn:Hrun.
      simpl in Hb |- *.
      destruct (created_inv _ _ _ _ _ _ _ _ Hrun Hb)
        as (_ & _ & car & _ & _ & _ & _ & _ & _ & _ & _ & _ & _ & _ & _ &
            _ & Hu & Hbu & _).
      rewrite Hu, Hbu. now apply Hacct.
    - simpl in Hb |- *. now apply guest_identity_stored. }
  assert (Hfind : Booking.findById (Booking.id b) (bookings st') = Some b).
  { subst st'.
    destruct (createReservation th now p req st) as [st1 r] eqn:Hrun.
    simpl in Hb |- *.
    destruct (created_inv _ _ _ _ _ _ _ _ Hrun Hb)
      as (_ & _ & car & _ & _ & _ & Hbs & Hid & _).
    rewrite Hbs. apply findById_app_fresh. rewrite Hid. apply fresh_not_in. }
  destruct Huser as [u Hpop].
  destruct (populated_user_some _ _ _ Hpop) as [_ Hid].
  unfold getBookingById, answer, read_bind, awaited. simpl.
  rewrite Hfind, Hpop, Hid. split.
  - intros role. now rewrite Nat.eqb_refl.
  - intros other role Hne.
    assert (Hneq : Nat.eqb (Booking.user b) other = false)
      by (apply Nat.eqb_neq; congruence).
    rewrite Hneq. simpl. destruct (is_admin role); reflexivity.
Qed.

Lemma granted_booking_reads_back_witness :
  getBookingById quiet 1%nat User.role_guest 1%nat
    (fst (createReservation no_faults sample_now (Guest sample_guest)
            sample_request sample_store))
  = BookingData
      (stored
         (guest_fields
            (snd (User.create "Ann" "ann@example.org" "555-0100" []))
            sample_request sample_car sample_guest) []).
Proof.
  apply (proj1
    (granted_booking_reads_back no_faults sample_now (Guest sample_guest)
       sample_request sample_store
       (stored
          (guest_fields
             (snd (User.create "Ann" "ann@example.org" "555-0100" []))
             sample_request sample_car sample_guest) [])
       ltac:(vm_compute; reflexivity)
       ltac:(intros userId H; discriminate H)) User.role_guest).
Defined.

(* ------------------------------------------------------------------ *)
(** ** The dashboard *)



Lemma in_cursor_limit {A} n (l : list A) x :
  In x (cursor_limit n l) -> In x l.
Proof.
  unfold cursor_limit. destruct (n =? 0); [auto|].
  intros H. rewrite <- (firstn_skipn (Z.to_nat (Z.abs n)) l).
  apply in_or_app. now left.
Qed.

Lemma in_skipped {A} n (l : list A) x : In x (skipn n l) -> In x l.
Proof.
  intros H. rewrite <- (firstn_skipn n l). apply in_or_app. now right.
Qed.



Lemma revenue_app bs b :
  revenue (bs ++ [b])
  = if Status_eqb (Booking.status b) completed && is_paid b
    then Number.add (revenue bs) (Booking.totalAmount b)
    else revenue bs.
Proof.
  unfold revenue. rewrite find_app, fold_left_app.
  unfold Booking.find. cbn [filter].
  destruct (Status_eqb (Booking.status b) completed && is_paid b);
    reflexivity.
Qed.

Lemma stored_pending f bs :
  Booking.f_status f = None \/ Booking.f_status f = Some pending ->
  Booking.status (stored f bs) = pending /\ is_paid (stored f bs) = false.
Proof.
  intros Hst. unfold stored, is_paid. cbn.
  destruct Hst as [-> | ->]; auto.
Qed.

Lemma unpaid_revenue bs :
  (forall b, In b bs -> is_paid b = false) -> revenue bs = 0.
Proof.
  intros Hun. unfold revenue.
  assert (E : Booking.find
            (fun b => Status_eqb (Booking.status b) completed && is_paid b) bs
          = []).
  { apply find_nil. intros b Hb. rewrite (Hun b Hb). apply andb_false_r. }
  now rewrite E.
Qed.

Lemma in_update_status_paid i s bs b :
  In b (Booking.update_status i s bs) ->
  exists b0, In b0 bs /\ is_paid b = is_paid b0.
Proof.
  induction bs as [|x bs IH]; simpl; [intros []|].
  destruct (Nat.eqb (Booking.id x) i).
  - intros [<- | Hin]; [exists x | exists b]; auto.
  - intros [-> | Hin]; [exists b; auto|].
    destruct (IH Hin) as (b0 & H0 & E). exists b0. auto.
Qed.

(** X14.  Revenue needs payment.  No creation request changes the revenue
    figure of the dashboard, whatever it is granted or refused.  No handler
    writes the payment status: if no stored reservation is paid, none is
    after any creation request or status change, and the revenue is 0. *)
Theorem revenue_needs_payment st :
  (forall th now p req,
      revenue (bookings (fst (createReservation th now p req st)))
      = revenue (bookings st)) /\
  ((forall b, In b (bookings st) -> is_paid b = false) ->
   (forall th now p req b,
       In b (bookings (fst (createReservation th now p req st))) ->
       is_paid b = false) /\
   (forall th bookingId newStatus b,
       In b (bookings (fst (updateBookingStatus th bookingId newStatus st)))
       -> is_paid b = false) /\
   revenue (bookings st) = 0).
Proof.
  split.
  - intros th now p req.
    destruct (run_effect th now p req st) as (_ & [E | E] & _);
      cbv zeta in E.
    + now rewrite E.
    + destruct E as (f & car & _ & E & _ & _ & _ & _ & _ & _ & Hst).
      rewrite E, revenue_app.
      destruct (stored_pending f (bookings st) Hst) as [-> _]. simpl. lia.
  - intros Hun. split; [|split].
    + intros th now p req b.
      destruct (run_effect th now p req st) as (_ & [E | E] & _);
        cbv zeta in E.
      * rewrite E. apply Hun.
      * destruct E as (f & car & _ & E & _ & _ & _ & _ & _ & _ & Hst).
        rewrite E. intros Hin. apply in_app_or in Hin.
        destruct Hin as [Hin | [<- | []]]; [now apply Hun|].
        apply (stored_pending f (bookings st) Hst).
    + intros th i s b.
      destruct (status_update_effect th i s st) as (_ & _ & [E | E]);
        cbv zeta in E; rewrite E; [apply Hun|].
      intros Hin. apply in_update_status_paid in Hin.
      destruct Hin as (b0 & H0 & ->). now apply Hun.
    + now apply unpaid_revenue.
Qed.

Lemma revenue_needs_payment_witness :
  revenue (bookings (sample_store_with completed)) = 0.
Proof.
  apply (proj2 (revenue_needs_payment (sample_store_with completed))).
  intros b [<- | []]. reflexivity.
Defined.

(* ------------------------------------------------------------------ *)
(** ** Listings *)

Lemma getMyBookings_eq newest_first th userId page limit status st :
  getMyBookings newest_first th userId page limit status st
  = paged newest_first th (my_query userId status) (parseInt_or page 1)
      (parseInt_or limit 10) st.
Proof.
  unfold getMyBookings, paged, answer, read_bind, awaited, awaited_checked,
    cursor_skip, my_query.
  destruct (th 1%nat); [reflexivity|].
  destruct (_ <? 0); [reflexivity|]. simpl.
  destruct (th 2%nat); reflexivity.
Qed.

Lemma getAllBookings_eq newest_first th page limit status st :
  getAllBookings newest_first th page limit status st
  = paged newest_first th (status_matches status) (parseInt_or page 1)
      (parseInt_or limit 20) st.
Proof.
  unfold getAllBookings, paged, answer, read_bind, awaited, awaited_checked,
    cursor_skip.
  destruct (th 1%nat); [reflexivity|].
  destruct (_ <? 0); [reflexivity|]. simpl.
  destruct (th 2%nat); reflexivity.
Qed.

Lemma paged_inv newest_first th query page limit st data pg :
  paged newest_first th query page limit st = BookingList data pg ->
  0 <= (page - 1) * limit /\
  data = cursor_limit limit
           (skipn (Z.to_nat ((page - 1) * limit))
              (newest_first (Booking.find query (bookings st)))) /\
  pg_page pg = page /\ pg_limit pg = limit /\
  pg_total pg = Z.of_nat (List.length (Booking.find query (bookings st))) /\
  pg_pages pg = Math_ceil_div (pg_total pg) limit.
Proof.
  unfold paged. destruct (th 1%nat); [discriminate|].
  destruct (_ <? 0) eqn:Hskip; [discriminate|].
  destruct (th 2%nat); [discriminate|].
  intros H. inversion H; subst; clear H. cbn.
  apply Z.ltb_ge in Hskip. repeat split; auto.
Qed.

(** X15.  A user's listing shows that user's bookings only.  Every booking
    in a reply of [GET /api/bookings] is a stored booking of the requesting
    user, in the requested status if one was asked for, on whatever page
    and with whatever limit; [total] is the number of all such bookings;
    and a status that is none of the five gives an empty page and total 0. *)
Theorem my_bookings_are_mine newest_first th userId page limit status st
    data pg :
  (forall l, Permutation (newest_first l) l) ->
  getMyBookings newest_first th userId page limit status st
  = BookingList data pg ->
  (forall b, In b data ->
             In b (bookings st) /\ Booking.user b = userId /\
             match status with
             | AnyStatus => True
             | OnlyStatus s => Booking.status b = s
             | NoSuchStatus => False
             end) /\
  pg_total pg
  = Z.of_nat
      (List.length
         (filter (fun b => Nat.eqb (Booking.user b) userId
                           && status_matches status b) (bookings st))) /\
  (status = NoSuchStatus -> data = [] /\ pg_total pg = 0).
Proof.
  intros Hperm H. rewrite getMyBookings_eq in H.
  apply paged_inv in H. destruct H as (_ & Hdata & _ & _ & Htotal & _).
  assert (Hin : forall b, In b data ->
            In b (bookings st) /\ my_query userId status b = true).
  { intros b Hb. subst data. apply in_cursor_limit, in_skipped in Hb.
    apply (Permutation_in _ (Hperm _)) in Hb. now apply find_spec in Hb. }
  split; [|split].
  - intros b Hb. destruct (Hin b Hb) as [H1 H2]. unfold my_query in H2.
    apply andb_true_iff in H2. destruct H2 as [Hu Hs].
    apply Nat.eqb_eq in Hu. split; [assumption | split; [assumption|]].
    destruct status; simpl in Hs; [exact I | now apply Status_eqb_eq |
                                   discriminate].
  - exact Htotal.
  - intros ->.
    assert (E : Booking.find (my_query userId NoSuchStatus) (bookings st)
                = []).
    { apply find_nil. intros b _. unfold my_query. simpl.
      apply andb_false_r. }
    rewrite E in Htotal. split; [|exact Htotal].
    destruct data as [|b data']; [reflexivity|].
    destruct (Hin b (or_introl eq_refl)) as [_ Hq].
    unfold my_query in Hq. simpl in Hq. rewrite andb_false_r in Hq.
    discriminate.
Qed.

Lemma my_bookings_are_mine_witness :
  Forall (fun b => Booking.user b = 7%nat)
    (data_of (getMyBookings newest_first_sample quiet 7%nat None None
                (OnlyStatus pending) (sample_store_with_user pending))).
Proof.
  apply Forall_forall. intros b Hb.
  destruct (getMyBookings newest_first_sample quiet 7%nat None None
              (OnlyStatus pending) (sample_store_with_user pending))
    as [| | |data pg| |] eqn:Hrun; try (destruct Hb).
  apply (proj1 (my_bookings_are_mine newest_first_sample quiet 7%nat None
                  None (OnlyStatus pending) (sample_store_with_user pending)
                  data pg (fun l => Permutation_sym (Permutation_rev l))
                  Hrun) b Hb).
Defined.

Lemma cursor_limit_pos {A} n (l : list A) :
  0 < n -> cursor_limit n l = firstn (Z.to_nat n) l.
Proof.
  intros Hn. unfold cursor_limit.
  destruct (n =? 0) eqn:H0; [apply Z.eqb_eq in H0; lia|].
  now rewrite Z.abs_eq by lia.
Qed.

(** X16.  Page arithmetic.  In a list reply of [GET /api/bookings] or of
    [GET /api/admin/bookings] with page and limit at least 1, the page
    holds [min(limit, total - (page - 1) * limit)] bookings, none when that
    is negative; [pages] is the least number of pages of that limit that
    hold [total] bookings; a page below [pages] is full and a page beyond
    [pages] is empty. *)
Theorem list_page_arithmetic newest_first th userId page limit status st
    data pg :
  (forall l, Permutation (newest_first l) l) ->
  getMyBookings newest_first th userId page limit status st
  = BookingList data pg \/
  getAllBookings newest_first th page limit status st
  = BookingList data pg ->
  1 <= pg_page pg -> 1 <= pg_limit pg ->
  Z.of_nat (List.length data)
  = Z.max 0 (Z.min (pg_limit pg)
               (pg_total pg - (pg_page pg - 1) * pg_limit pg)) /\
  (pg_pages pg - 1) * pg_limit pg < pg_total pg
    <= pg_pages pg * pg_limit pg /\
  (pg_page pg < pg_pages pg -> Z.of_nat (List.length data) = pg_limit pg) /\
  (pg_pages pg < pg_page pg -> data = []).
Proof.
  intros Hperm Hrun Hpage Hlimit.
  assert (Hinv : exists query p l,
    paged newest_first th query p l st = BookingList data pg).
  { destruct Hrun as [H | H];
      [rewrite getMyBookings_eq in H | rewrite getAllBookings_eq in H];
      eauto. }
  destruct Hinv as (query & p & l & H). apply paged_inv in H.
  destruct H as (Hskip & Hdata & Hp & Hl & Htotal & Hpages).
  subst p l.
  pose proof (Math_ceil_div_spec (pg_total pg) (pg_limit pg)
                ltac:(lia)) as Hceil.
  rewrite <- Hpages in Hceil.
  assert (Hlen : Z.of_nat (List.length data)
                 = Z.max 0 (Z.min (pg_limit pg)
                              (pg_total pg
                               - (pg_page pg - 1) * pg_limit pg))).
  { subst data. rewrite cursor_limit_pos by lia.
    rewrite length_firstn, length_skipn.
    rewrite (Permutation_length (Hperm _)).
    remember ((pg_page pg - 1) * pg_limit pg) as skip.
    remember (List.length (Booking.find query (bookings st))) as n.
    lia. }
  split; [assumption | split; [assumption | split]].
  - intros Hlt. rewrite Hlen. nia.
  - intros Hgt. apply length_zero_iff_nil.
    assert (Z.of_nat (List.length data) = 0) by (rewrite Hlen; nia). lia.
Qed.

Lemma list_page_arithmetic_witness :
  data_of (getAllBookings newest_first_sample quiet (Some 2) (Some 5)
             AnyStatus (sample_store_with_user pending)) = [].
Proof.
  destruct (getAllBookings newest_first_sample quiet (Some 2) (Some 5)
              AnyStatus (sample_store_with_user pending))
    as [| | |data pg| |] eqn:Hrun; try reflexivity.
  apply (list_page_arithmetic newest_first_sample quiet 0%nat (Some 2)
           (Some 5) AnyStatus (sample_store_with_user pending) data pg
           (fun l => Permutation_sym (Permutation_rev l))
           (or_intror Hrun));
    vm_compute in Hrun; inversion Hrun; subst; vm_compute;
    try reflexivity; discriminate.
Defined.

Lemma firstn_chunks {A} (a b : nat) (l : list A) :
  firstn a l ++ firstn b (skipn a l) = firstn (a + b) l.
Proof.
  revert l. induction a as [|a IH]; intros l; [reflexivity|].
  destruct l as [|x l]; simpl.
  - now rewrite firstn_nil.
  - now rewrite IH.
Qed.

Lemma parseInt_or_nonzero n d : n <> 0 -> parseInt_or (Some n) d = n.
Proof.
  intros Hn. unfold parseInt_or.
  destruct (n =? 0) eqn:H0; [apply Z.eqb_eq in H0; contradiction|].
  reflexivity.
Qed.

Lemma pages_upto_paged newest_first query limit st :
  1 <= limit ->
  forall n,
    pages_upto
      (fun p => data_of (paged newest_first quiet query p limit st)) n
    = firstn (n * Z.to_nat limit)
        (newest_first (Booking.find query (bookings st))).
Proof.
  intros Hl. induction n as [|n IH]; [reflexivity|].
  cbn [pages_upto]. rewrite IH. unfold paged, quiet. cbv iota.
  assert (Hskip : (Z.of_nat (S n) - 1) * limit = Z.of_nat n * limit)
    by lia.
  rewrite Hskip.
  assert (Hpos : (Z.of_nat n * limit <? 0) = false)
    by (apply Z.ltb_ge; nia).
  rewrite Hpos. cbn [data_of].
  rewrite cursor_limit_pos by lia.
  rewrite Z2Nat.inj_mul, Nat2Z.id by lia.
  rewrite firstn_chunks. f_equal. lia.
Qed.

(** X17.  The pages make up the listing.  For a limit of at least 1 (the
    default when none is given), the pages [1 .. pages] of a listing, read
    one after the other from an unchanged store that answers, are the whole
    listing: every booking the query matches appears once, in the order of
    the sort.  This holds of a user's listing and of the admin listing. *)
Theorem pages_make_up_listing newest_first userId limit status st :
  (forall l, Permutation (newest_first l) l) ->
  (1 <= parseInt_or limit 10 ->
   let matching := Booking.find (my_query userId status) (bookings st) in
   let pages :=
     Math_ceil_div (Z.of_nat (List.length matching))
       (parseInt_or limit 10) in
   pages_upto
     (fun p =>
        data_of (getMyBookings newest_first quiet userId (Some p) limit
                   status st))
     (Z.to_nat pages)
   = newest_first matching) /\
  (1 <= parseInt_or limit 20 ->
   let matching := Booking.find (status_matches status) (bookings st) in
   let pages :=
     Math_ceil_div (Z.of_nat (List.length matching))
       (parseInt_or limit 20) in
   pages_upto
     (fun p =>
        data_of (getAllBookings newest_first quiet (Some p) limit status st))
     (Z.to_nat pages)
   = newest_first matching).
Proof.
  intros Hperm.
  assert (Hgen : forall query L (data : Z -> list Booking.t),
    1 <= L ->
    (forall n, pages_upto data n
               = pages_upto
                   (fun p => data_of (paged newest_first quiet query p L st))
                   n) ->
    pages_upto data
      (Z.to_nat
         (Math_ceil_div
            (Z.of_nat (List.length (Booking.find query (bookings st)))) L))
    = newest_first (Booking.find query (bookings st))).
  { intros query L data HL Hdata. rewrite Hdata.
    rewrite pages_upto_paged by assumption.
    apply firstn_all2.
    rewrite (Permutation_length (Hperm _)).
    pose proof (Math_ceil_div_spec
                  (Z.of_nat (List.length (Booking.find query (bookings st))))
                  L ltac:(lia)) as Hceil.
    remember (Math_ceil_div _ L) as pages.
    remember (List.length (Booking.find query (bookings st))) as n.
    assert (0 <= pages) by nia.
    apply Nat2Z.inj_le. rewrite Nat2Z.inj_mul, !Z2Nat.id by lia. lia. }
  assert (Hsame : forall (f g : Z -> list Booking.t),
    (forall k, f (Z.of_nat (S k)) = g (Z.of_nat (S k))) ->
    forall n, pages_upto f n = pages_upto g n).
  { intros f g Hfg. induction n as [|n IH]; [reflexivity|].
    cbn [pages_upto]. now rewrite IH, Hfg. }
  split; intros HL; cbv zeta; apply Hgen; try assumption; apply Hsame;
    intros k;
    [rewrite getMyBookings_eq | rewrite getAllBookings_eq];
    rewrite parseInt_or_nonzero by lia; reflexivity.
Qed.

Lemma pages_make_up_listing_witness :
  pages_upto
    (fun p =>
       data_of (getAllBookings newest_first_sample quiet (Some p) (Some 1)
                  AnyStatus (sample_store_with_user pending)))
    1
  = [sample_booking pending].
Proof.
  apply (proj2 (pages_make_up_listing newest_first_sample 0%nat (Some 1)
                  AnyStatus (sample_store_with_user pending)
                  (fun l => Permutation_sym (Permutation_rev l)))).
  vm_compute. discriminate.
Defined.
